(** * Point cloud to watertight mesh: the [MeshConverter] pipeline

  A shallow embedding of [src/mesh_processing/mesh_converter.py].

  The converter is glue code: every stage is one or a few calls into
  Open3D, trimesh, NumPy, [pathlib] and [os].  The embedding keeps that
  shape.  The control flow, the parameters handed to each call, the order
  of the calls, the printed lines, the file system effects and the path
  arithmetic are modelled as the code has them; the numerical algorithms
  of the libraries are the operations of an interface ([Libs]) that the
  converter is parameterised by.  [pathlib] (POSIX flavour, CPython
  3.8 to 3.13) and [os.path.join] are pure string functions and are
  modelled in full. *)

From Stdlib Require Import String Ascii List ZArith QArith Qround Bool Lia DecimalString.
From stdpp Require Import gmap strings.
Import ListNotations.

Local Open Scope string_scope.
Local Open Scope list_scope.

(** ** Strings as Python uses them *)

Module PyStr.

(** [s.split(c)] for a one-character separator: never returns [[]]. *)
Fixpoint split (c : ascii) (s : string) : list string :=
  match s with
  | EmptyString => [EmptyString]
  | String a s' =>
      if Ascii.eqb a c then EmptyString :: split c s'
      else match split c s' with
           | [] => [String a EmptyString]
           | h :: t => String a h :: t
           end
  end.

(** [c in s] *)
Fixpoint contains (c : ascii) (s : string) : bool :=
  match s with
  | EmptyString => false
  | String a s' => Ascii.eqb a c || contains c s'
  end.

(** [s.startswith(c)] and [s.endswith(c)] *)
Definition startswith (c : ascii) (s : string) : bool :=
  match s with
  | String a _ => Ascii.eqb a c
  | EmptyString => false
  end.

Fixpoint endswith (c : ascii) (s : string) : bool :=
  match s with
  | EmptyString => false
  | String a EmptyString => Ascii.eqb a c
  | String _ s' => endswith c s'
  end.

(** [s.rfind(c)], with [None] for Python's [-1]. *)
Fixpoint rfind (c : ascii) (s : string) : option nat :=
  match s with
  | EmptyString => None
  | String a s' =>
      match rfind c s' with
      | Some i => Some (S i)
      | None => if Ascii.eqb a c then Some 0 else None
      end
  end.

(** The slices [s[:n]] and [s[n:]]. *)
Fixpoint take (n : nat) (s : string) : string :=
  match n, s with
  | S n', String a s' => String a (take n' s')
  | _, _ => EmptyString
  end.

Fixpoint drop (n : nat) (s : string) : string :=
  match n, s with
  | S n', String _ s' => drop n' s'
  | _, _ => s
  end.

(** [sep.join(l)] *)
Fixpoint join (sep : string) (l : list string) : string :=
  match l with
  | [] => EmptyString
  | [x] => x
  | x :: rest => String.append x (String.append sep (join sep rest))
  end.

End PyStr.

(** ** [pathlib.PurePosixPath] and [os.path.join] *)

Module PosixPath.

Definition sep : ascii := "/"%char.
Definition dot : ascii := "."%char.

(** A parsed path: the root ([""], ["/"] or ["//"]) and the components
    after it.  The drive is always empty on POSIX and is left out. *)
Record PurePath : Type := mkPath { root : string; tail : list string }.

(** [posixpath.splitroot], without the drive. *)
Definition splitroot (p : string) : string * string :=
  match p with
  | String a rest =>
      if Ascii.eqb a sep then
        match rest with
        | String b rest2 =>
            if Ascii.eqb b sep then
              if PyStr.startswith sep rest2 then ("/", rest)
              else ("//", rest2)
            else ("/", rest)
        | EmptyString => ("/", rest)
        end
      else ("", p)
  | EmptyString => ("", p)
  end.

(** A component survives parsing when it is neither empty nor ["."]. *)
Definition keep (x : string) : bool :=
  negb (String.eqb x "") && negb (String.eqb x ".").

(** [Path(p)] *)
Definition parse (p : string) : PurePath :=
  let '(r, rel) := splitroot p in
  mkPath r (List.filter keep (PyStr.split sep rel)).

(** [str(path)] *)
Definition str (p : PurePath) : string :=
  let s := String.append (root p) (PyStr.join "/" (tail p)) in
  if String.eqb s "" then "." else s.

(** [path.name] *)
Definition name (p : PurePath) : string := List.last (tail p) "".

(** The index at which the suffix of a file name starts:
    [i = name.rfind('.')], accepted when [0 < i < len(name) - 1]. *)
Definition suffix_index (n : string) : option nat :=
  match PyStr.rfind dot n with
  | Some i => if (0 <? i)%nat && (i + 1 <? String.length n)%nat
              then Some i else None
  | None => None
  end.

(** [path.suffix] and [path.stem], on the name. *)
Definition name_suffix (n : string) : string :=
  match suffix_index n with
  | Some i => PyStr.drop i n
  | None => ""
  end.

Definition name_stem (n : string) : string :=
  match suffix_index n with
  | Some i => PyStr.take i n
  | None => n
  end.

Definition suffix (p : PurePath) : string := name_suffix (name p).
Definition stem (p : PurePath) : string := name_stem (name p).

(** The suffixes [with_suffix] accepts: no separator, and either empty
    or a dot followed by something. *)
Definition valid_suffix (s : string) : bool :=
  negb (PyStr.contains sep s)
  && negb ((negb (String.eqb s "") && negb (PyStr.startswith dot s))
           || String.eqb s ".").

(** [path.with_suffix(s)]; [None] stands for the [ValueError]. *)
Definition with_suffix (p : PurePath) (s : string) : option PurePath :=
  if negb (valid_suffix s) then None
  else if String.eqb (name p) "" then None
  else Some (mkPath (root p)
                    (List.removelast (tail p) ++ [String.append (stem p) s])).

(** [os.path.join(a, b)] *)
Definition os_path_join (a b : string) : string :=
  if PyStr.startswith sep b then b
  else if String.eqb a "" || PyStr.endswith sep a then String.append a b
  else String.append a (String.append "/" b).

(** [str(Path(s))]: the normal form of a path string. *)
Definition normalize (s : string) : string := str (parse s).

(** A path component as parsing leaves it: not empty, not ["."], no
    separator inside. *)
Definition component (x : string) : bool := keep x && negb (PyStr.contains sep x).

(** The paths parsing produces. *)
Definition normal (p : PurePath) : bool :=
  (String.eqb (root p) "" || String.eqb (root p) "/" || String.eqb (root p) "//")
  && forallb component (tail p).

(** A format identifier that is a plain file extension, such as ["obj"]:
    not empty, without separator and without dot. *)
Definition plain_format (f : string) : bool :=
  negb (String.eqb f "") && negb (PyStr.contains sep f) && negb (PyStr.contains dot f).

End PosixPath.

(** ** The libraries the converter calls

    Floating-point numbers, NumPy reductions, Open3D and trimesh objects
    and algorithms.  The converter never looks inside them: it passes
    values from one call to the next, so they are the operations of an
    interface.  In Python the Open3D and trimesh calls below mutate their
    receiver and the converter goes on with the same object; each is a
    function from the object before to the object after.  The operations
    are total: an exception raised inside a library is not modelled (the
    converter catches none, it would end the run where it is raised). *)

Definition triangle : Type := (Z * Z * Z)%type.

Class Libs : Type := {
  (* Python floats (IEEE binary64) *)
  float : Type;
  float_of_Z : Z -> float;                 (* an [int] operand, converted *)
  float_of_decimal : Q -> float;           (* a decimal literal such as [1.1] *)
  fmul : float -> float -> float;
  fdiv : float -> float -> float;
  flt : float -> float -> bool;
  (* NumPy *)
  np_mean : list float -> float;
  np_max : list float -> float;
  np_quantile : list float -> float -> float;
  (* Open3D point clouds *)
  PointCloud : Type;
  empty_point_cloud : PointCloud;
  pcd_points : PointCloud -> list (float * float * float);
  has_normals : PointCloud -> bool;
  compute_nearest_neighbor_distance : PointCloud -> list float;
  o3d_estimate_normals : float -> Z -> PointCloud -> PointCloud;
  orient_normals_consistent_tangent_plane : Z -> PointCloud -> PointCloud;
  (* Open3D triangle meshes *)
  TriangleMesh : Type;
  o3d_mesh : list (float * float * float) -> list triangle -> TriangleMesh;
  vertices : TriangleMesh -> list (float * float * float);
  triangles : TriangleMesh -> list triangle;
  create_from_point_cloud_poisson :
    PointCloud -> Z -> Z -> float -> bool -> TriangleMesh * list float;
  remove_vertices_by_mask : list bool -> TriangleMesh -> TriangleMesh;
  remove_degenerate_triangles : TriangleMesh -> TriangleMesh;
  remove_duplicated_triangles : TriangleMesh -> TriangleMesh;
  remove_duplicated_vertices : TriangleMesh -> TriangleMesh;
  remove_non_manifold_edges : TriangleMesh -> TriangleMesh;
  (* trimesh *)
  Trimesh : Type;
  VoxelGrid : Type;
  Boxes : Type;
  trimesh_Trimesh : list (float * float * float) -> list triangle -> Trimesh;
  tm_vertices : Trimesh -> list (float * float * float);
  tm_faces : Trimesh -> list triangle;
  is_watertight : Trimesh -> bool;
  fill_holes : Trimesh -> Trimesh;
  bounding_box_extents : Trimesh -> list float;
  voxelized : Trimesh -> float -> VoxelGrid;
  as_boxes : VoxelGrid -> Boxes;
  to_mesh : Boxes -> Trimesh;
  filter_laplacian : Trimesh -> Trimesh;
  tm_volume : Trimesh -> float;
  tm_area : Trimesh -> float;
  exporter_available : string -> bool      (* can [export] write this path? *)
}.

(** The file name [f"{base_name}_watertight.{output_format}"]. *)
Definition watertight_name (base_name output_format : string) : string :=
  String.append base_name (String.append "_watertight." output_format).

(** ** The world the converter runs in *)

Section Converter.

Context {L : Libs}.

(** What a file holds: a point cloud to read, or a mesh that was exported. *)
Inductive File : Type :=
| PlyCloud (pcd : PointCloud)
| MeshFile (mesh : Trimesh).

(** The lines the converter prints, one constructor per [print]. *)
Inductive Msg : Type :=
| MsgLoaded (n_points : nat)
| MsgEstimatingNormals
| MsgRunningPoisson (depth : Z)
| MsgReconstructed (n_vertices n_triangles : nat)
| MsgCleaning
| MsgCleaned (n_vertices n_triangles : nat)
| MsgMakingWatertight
| MsgNotWatertightAttemptingFix
| MsgUsingVoxelization
| MsgNowWatertight
| MsgWarningMayNotBeWatertight
| MsgSaved (path : string)
| MsgFinalStatistics
| MsgStatVertices (n : nat)
| MsgStatFaces (n : nat)
| MsgStatWatertight (b : bool)
| MsgStatVolume (v : float)
| MsgStatArea (a : float).

(** The library calls that do work, with the scalar arguments the
    converter chose for them, in the order they were made. *)
Inductive Call : Type :=
| call_read_point_cloud (path : string)
| call_compute_nearest_neighbor_distance
| call_estimate_normals (radius : float) (max_nn : Z)
| call_orient_normals_consistent_tangent_plane (k : Z)
| call_create_from_point_cloud_poisson (depth width : Z) (scale : float) (linear_fit : bool)
| call_remove_vertices_by_mask (mask : list bool)
| call_remove_degenerate_triangles
| call_remove_duplicated_triangles
| call_remove_duplicated_vertices
| call_remove_non_manifold_edges
| call_fill_holes
| call_voxelized (pitch : float)
| call_as_boxes
| call_to_mesh
| call_filter_laplacian
| call_export (path : string).

Record World : Type := mkWorld {
  fs_dirs : gset string;
  fs_files : gmap string File;
  stdout : list Msg;
  calls : list Call
}.

(** The exceptions of the modelled calls. *)
Inductive Exn : Type :=
| ValueError               (* [Path.with_suffix] *)
| FileNotFoundError        (* [os.makedirs] *)
| FileExistsError          (* [os.makedirs] *)
| ExportError.             (* [mesh.export]: no exporter for the file type *)

(** A computation changes the world and returns a value or raises; what
    it did to the world before raising stays done. *)
Definition M (A : Type) : Type := World -> World * (Exn + A).

Definition ret {A : Type} (a : A) : M A := fun w => (w, inr a).

Definition bind {A B : Type} (m : M A) (k : A -> M B) : M B :=
  fun w => match m w with
           | (w', inl e) => (w', inl e)
           | (w', inr a) => k a w'
           end.

Definition raise {A : Type} (e : Exn) : M A := fun w => (w, inl e).

Definition print (m : Msg) : M unit :=
  fun w => (mkWorld (fs_dirs w) (fs_files w) (stdout w ++ [m]) (calls w), inr tt).

(** A library call [c] returning [a]. *)
Definition lib {A : Type} (c : Call) (a : A) : M A :=
  fun w => (mkWorld (fs_dirs w) (fs_files w) (stdout w) (calls w ++ [c]), inr a).

#[global] Instance M_ret : MRet M := @ret.
#[global] Instance M_bind : MBind M := fun A B k m => bind m k.

(** [os.makedirs(name, exist_ok=True)]: nothing to do for a directory
    that is there; a file of that name, or the empty name, is an error.
    Directories are recorded under the name they were asked for; the
    parents that [makedirs] creates on the way are not recorded. *)
Definition os_makedirs_exist_ok (name : string) : M unit :=
  fun w =>
    if String.eqb name "" then (w, inl FileNotFoundError)
    else if decide (name ∈ fs_dirs w) then (w, inr tt)
    else if decide (is_Some (fs_files w !! name)) then (w, inl FileExistsError)
    else (mkWorld ({[ name ]} ∪ fs_dirs w) (fs_files w) (stdout w) (calls w), inr tt).

(** [o3d.io.read_point_cloud(path)]: an empty cloud when there is no
    point cloud to read at [path]. *)
Definition read_point_cloud (path : string) : M PointCloud :=
  fun w =>
    lib (call_read_point_cloud path)
        (match fs_files w !! path with
         | Some (PlyCloud pcd) => pcd
         | _ => empty_point_cloud
         end) w.

(** [mesh.export(path)] *)
Definition export (mesh : Trimesh) (path : string) : M unit :=
  fun w =>
    if exporter_available path
    then (mkWorld (fs_dirs w) (<[ path := MeshFile mesh ]> (fs_files w))
                  (stdout w) (calls w ++ [call_export path]), inr tt)
    else (w, inl ExportError).

(** ** [MeshConverter] *)

Definition default_depth : Z := 9.
Definition default_width : Z := 0.
Definition default_scale : float := float_of_decimal (11 # 10).
Definition default_linear_fit : bool := false.
Definition default_density_threshold : float := float_of_decimal (1 # 100).
Definition default_resolution : Z := 20000.
Definition default_output_dir : string := "data/output".
Definition default_file_format : string := "obj".

Definition load_point_cloud (ply_path : string) : M PointCloud :=
  pcd ← read_point_cloud ply_path;
  print (MsgLoaded (length (pcd_points pcd)));;
  mret pcd.

Definition estimate_normals (pcd : PointCloud) : M PointCloud :=
  print MsgEstimatingNormals;;
  distances ← lib call_compute_nearest_neighbor_distance
                  (compute_nearest_neighbor_distance pcd);
  let avg_dist := np_mean distances in
  let radius := fmul avg_dist (float_of_Z 2) in
  pcd ← lib (call_estimate_normals radius 30) (o3d_estimate_normals radius 30 pcd);
  pcd ← lib (call_orient_normals_consistent_tangent_plane 15)
            (orient_normals_consistent_tangent_plane 15 pcd);
  mret pcd.

Definition poisson_reconstruction (pcd : PointCloud)
    (depth width : Z) (scale : float) (linear_fit : bool)
  : M (TriangleMesh * list float) :=
  print (MsgRunningPoisson depth);;
  '(mesh, densities) ←
     lib (call_create_from_point_cloud_poisson depth width scale linear_fit)
         (create_from_point_cloud_poisson pcd depth width scale linear_fit);
  print (MsgReconstructed (length (vertices mesh)) (length (triangles mesh)));;
  mret (mesh, densities).

Definition clean_mesh (mesh : TriangleMesh) (densities : option (list float))
    (density_threshold : float) : M TriangleMesh :=
  print MsgCleaning;;
  mesh ← match densities with
         | Some densities =>
             let q := np_quantile densities density_threshold in
             let vertices_to_remove := map (fun d => flt d q) densities in
             lib (call_remove_vertices_by_mask vertices_to_remove)
                 (remove_vertices_by_mask vertices_to_remove mesh)
         | None => mret mesh
         end;
  mesh ← lib call_remove_degenerate_triangles (remove_degenerate_triangles mesh);
  mesh ← lib call_remove_duplicated_triangles (remove_duplicated_triangles mesh);
  mesh ← lib call_remove_duplicated_vertices (remove_duplicated_vertices mesh);
  mesh ← lib call_remove_non_manifold_edges (remove_non_manifold_edges mesh);
  print (MsgCleaned (length (vertices mesh)) (length (triangles mesh)));;
  mret mesh.

Definition make_watertight (mesh : TriangleMesh) (resolution : Z) : M Trimesh :=
  print MsgMakingWatertight;;
  let tri_mesh := trimesh_Trimesh (vertices mesh) (triangles mesh) in
  tri_mesh ← (if negb (is_watertight tri_mesh) then
                print MsgNotWatertightAttemptingFix;;
                lib call_fill_holes (fill_holes tri_mesh)
              else mret tri_mesh);
  tri_mesh ← (if negb (is_watertight tri_mesh) then
                print MsgUsingVoxelization;;
                let pitch := fdiv (np_max (bounding_box_extents tri_mesh))
                                  (float_of_Z resolution) in
                voxelized_ ← lib (call_voxelized pitch) (voxelized tri_mesh pitch);
                boxes ← lib call_as_boxes (as_boxes voxelized_);
                tri_mesh ← lib call_to_mesh (to_mesh boxes);
                lib call_filter_laplacian (filter_laplacian tri_mesh)
              else mret tri_mesh);
  (if is_watertight tri_mesh then print MsgNowWatertight
   else print MsgWarningMayNotBeWatertight);;
  mret tri_mesh.

Definition save_mesh (mesh : Trimesh) (output_path file_format : string) : M string :=
  match PosixPath.with_suffix (PosixPath.parse output_path)
                              (String.append "." file_format) with
  | None => raise ValueError
  | Some p =>
      let output_path := PosixPath.str p in
      export mesh output_path;;
      print (MsgSaved output_path);;
      mret output_path
  end.

Definition convert_to_watertight_mesh (ply_path output_dir : string)
    (depth : Z) (clean : bool) (output_format : string) : M string :=
  os_makedirs_exist_ok output_dir;;
  pcd ← load_point_cloud ply_path;
  pcd ← (if negb (has_normals pcd) then estimate_normals pcd else mret pcd);
  '(mesh, densities) ←
     poisson_reconstruction pcd depth default_width default_scale default_linear_fit;
  mesh ← (if clean then clean_mesh mesh (Some densities) default_density_threshold
          else mret mesh);
  tri_mesh ← make_watertight mesh default_resolution;
  let base_name := PosixPath.stem (PosixPath.parse ply_path) in
  let output_path :=
    PosixPath.os_path_join output_dir (watertight_name base_name output_format) in
  output_path ← save_mesh tri_mesh output_path output_format;
  print MsgFinalStatistics;;
  print (MsgStatVertices (length (tm_vertices tri_mesh)));;
  print (MsgStatFaces (length (tm_faces tri_mesh)));;
  print (MsgStatWatertight (is_watertight tri_mesh));;
  print (MsgStatVolume (tm_volume tri_mesh));;
  print (MsgStatArea (tm_area tri_mesh));;
  mret output_path.

(** What a run adds to the printed lines and to the calls made. *)
Definition emit (w : World) (msgs : list Msg) (cs : list Call) : World :=
  mkWorld (fs_dirs w) (fs_files w) (stdout w ++ msgs) (calls w ++ cs).

(** [runs m w msgs cs a]: started in [w], [m] returns [a] after printing
    [msgs] and making the calls [cs], and changes nothing else. *)
Definition runs {A : Type} (m : M A) (w : World) (msgs : list Msg) (cs : list Call)
    (a : A) : Prop :=
  m w = (emit w msgs cs, inr a).

(** The point cloud that [read_point_cloud] finds at [path]. *)
Definition stored_cloud (w : World) (path : string) : PointCloud :=
  match fs_files w !! path with
  | Some (PlyCloud pcd) => pcd
  | _ => empty_point_cloud
  end.

(** The world once [output_dir] is a directory. *)
Definition with_dir (output_dir : string) (w : World) : World :=
  mkWorld ({[ output_dir ]} ∪ fs_dirs w) (fs_files w) (stdout w) (calls w).

(** A mesh operation that adds neither vertices nor triangles. *)
Definition no_growth (f : TriangleMesh -> TriangleMesh) : Prop :=
  forall m, (length (vertices (f m)) <= length (vertices m))%nat
            /\ (length (triangles (f m)) <= length (triangles m))%nat.

(** Readings of what was printed and called. *)
Definition printed_watertight (w : World) : list bool :=
  flat_map (fun m => match m with MsgStatWatertight b => [b] | _ => [] end) (stdout w).

Definition printed_warning (w : World) : bool :=
  existsb (fun m => match m with MsgWarningMayNotBeWatertight => true | _ => false end)
          (stdout w).

Definition printed_points (w : World) : list nat :=
  flat_map (fun m => match m with MsgLoaded n => [n] | _ => [] end) (stdout w).

Definition poisson_depths (w : World) : list Z :=
  flat_map (fun c => match c with
                     | call_create_from_point_cloud_poisson d _ _ _ => [d]
                     | _ => []
                     end) (calls w).

Definition exports (w : World) : list string :=
  flat_map (fun c => match c with call_export p => [p] | _ => [] end) (calls w).

(** The line [make_watertight] ends with. *)
Definition status_line (watertight : bool) : Msg :=
  if watertight then MsgNowWatertight else MsgWarningMayNotBeWatertight.

(** The statistics the pipeline prints last. *)
Definition statistics (tri_mesh : Trimesh) : list Msg :=
  [MsgFinalStatistics;
   MsgStatVertices (length (tm_vertices tri_mesh));
   MsgStatFaces (length (tm_faces tri_mesh));
   MsgStatWatertight (is_watertight tri_mesh);
   MsgStatVolume (tm_volume tri_mesh);
   MsgStatArea (tm_area tri_mesh)].

(** The world after a successful [export] of [mesh] to [path] that also
    printed [msgs] and made the calls [cs] before the export. *)
Definition exported (w : World) (msgs : list Msg) (cs : list Call)
    (path : string) (mesh : Trimesh) : World :=
  mkWorld (fs_dirs w) (<[ path := MeshFile mesh ]> (fs_files w))
          (stdout w ++ msgs) (calls w ++ cs ++ [call_export path]).

(** The conversion back to Open3D that [visualize_mesh] performs on a
    loaded trimesh (vertices from [mesh.vertices], triangles from
    [mesh.faces]). *)
Definition open3d_of_trimesh (mesh : Trimesh) : TriangleMesh :=
  o3d_mesh (tm_vertices mesh) (tm_faces mesh).

(** Watertight repair applied to its own result. *)
Definition repair_twice (mesh : TriangleMesh) (resolution : Z) : M Trimesh :=
  tri_mesh ← make_watertight mesh resolution;
  make_watertight (open3d_of_trimesh tri_mesh) resolution.

End Converter.

(** ** A small executable library

    An instance of [Libs] on rational coordinates, to run the converter
    on concrete inputs.  It is not a model of Open3D or trimesh numerics:
    distances are taken in the max norm so that they stay rational, the
    surface reconstruction is the box around the samples, a voxel is
    occupied when it holds a vertex, the boxes of voxels that touch share
    their corners, and only triangular holes are filled.  The
    combinatorial operations (mask removal, degenerate and duplicate
    removal, the watertightness test) follow the libraries' documented
    meaning. *)

Module RefLibs.

Definition vec3 : Type := (Q * Q * Q)%type.

Record Cloud : Type := mkCloud { cloud_points : list vec3; cloud_normals : list vec3 }.
Record Mesh : Type := mkMesh { mesh_vertices : list vec3; mesh_faces : list triangle }.

Definition qlt (a b : Q) : bool := negb (Qle_bool b a).
Definition qmax (a b : Q) : Q := if Qle_bool a b then b else a.
Definition qmin (a b : Q) : Q := if Qle_bool a b then a else b.
Definition qabs (a : Q) : Q := if Qle_bool 0 a then a else Qopp a.

Definition qsum (l : list Q) : Q := fold_right Qplus 0%Q l.

Definition mean (l : list Q) : Q := Qred (qsum l / inject_Z (Z.of_nat (length l))).

Definition maximum (l : list Q) : Q :=
  match l with
  | [] => 0%Q
  | x :: rest => fold_right qmax x rest
  end.

Definition minimum (l : list Q) : Q :=
  match l with
  | [] => 0%Q
  | x :: rest => fold_right qmin x rest
  end.

Fixpoint insert_sorted (x : Q) (l : list Q) : list Q :=
  match l with
  | [] => [x]
  | y :: rest => if Qle_bool x y then x :: l else y :: insert_sorted x rest
  end.

Definition sort (l : list Q) : list Q := fold_right insert_sorted [] l.

(** The quantile with linear interpolation between the two nearest ranks. *)
Definition quantile (l : list Q) (q : Q) : Q :=
  let s := sort l in
  let pos := (q * inject_Z (Z.of_nat (length l) - 1))%Q in
  let lo := Qfloor pos in
  let a := nth (Z.to_nat lo) s 0%Q in
  let b := nth (Z.to_nat (lo + 1)) s a in
  Qred (a + (pos - inject_Z lo) * (b - a)).

Definition dist (p q : vec3) : Q :=
  let '(px, py, pz) := p in
  let '(qx, qy, qz) := q in
  qmax (qabs (px - qx)) (qmax (qabs (py - qy)) (qabs (pz - qz))).

Definition others {A : Type} (i : nat) (l : list A) : list A :=
  firstn i l ++ skipn (S i) l.

Definition nearest_neighbor_distance (c : Cloud) : list Q :=
  map (fun i => Qred (minimum (map (dist (nth i (cloud_points c) (0, 0, 0)%Q))
                                   (others i (cloud_points c)))))
      (seq 0 (length (cloud_points c))).

Definition cloud_has_normals (c : Cloud) : bool :=
  negb (Nat.eqb (length (cloud_points c)) 0)
  && Nat.eqb (length (cloud_normals c)) (length (cloud_points c)).

Definition set_normals (radius : Q) (max_nn : Z) (c : Cloud) : Cloud :=
  mkCloud (cloud_points c) (map (fun _ => (0, 0, 1)%Q) (cloud_points c)).

Definition xs (l : list vec3) : list Q := map (fun p => fst (fst p)) l.
Definition ys (l : list vec3) : list Q := map (fun p => snd (fst p)) l.
Definition zs (l : list vec3) : list Q := map snd l.

(** The twelve triangles of a box on eight corners numbered from [o],
    corner [4 x + 2 y + z], wound outwards. *)
Definition box_faces (o : Z) : list triangle :=
  map (fun '(a, b, c) => (o + a, o + b, o + c)%Z)
      [ (0, 1, 3); (0, 3, 2); (4, 6, 7); (4, 7, 5);
        (0, 4, 5); (0, 5, 1); (2, 3, 7); (2, 7, 6);
        (0, 2, 6); (0, 6, 4); (1, 5, 7); (1, 7, 3) ]%Z.

Definition box_corners (lo hi : vec3) : list vec3 :=
  let '(x0, y0, z0) := lo in
  let '(x1, y1, z1) := hi in
  [ (x0, y0, z0); (x0, y0, z1); (x0, y1, z0); (x0, y1, z1);
    (x1, y0, z0); (x1, y0, z1); (x1, y1, z0); (x1, y1, z1) ].

Definition lower (l : list vec3) : vec3 := (minimum (xs l), minimum (ys l), minimum (zs l)).
Definition upper (l : list vec3) : vec3 := (maximum (xs l), maximum (ys l), maximum (zs l)).

(** Reconstruction: the box around the samples; the density of a corner
    is the number of samples that have no nearer corner.  Nothing for an
    empty cloud. *)
Definition nearest_to (corners : list vec3) (c p : vec3) : bool :=
  forallb (fun c' => Qle_bool (dist p c) (dist p c')) corners.

Definition support (pts corners : list vec3) (c : vec3) : Q :=
  inject_Z (Z.of_nat (length (List.filter (nearest_to corners c) pts))).

Definition poisson (c : Cloud) (depth width : Z) (scale : Q) (linear_fit : bool)
  : Mesh * list Q :=
  match cloud_points c with
  | [] => (mkMesh [] [], [])
  | pts =>
      let corners := box_corners (lower pts) (upper pts) in
      (mkMesh corners (box_faces 0), map (support pts corners) corners)
  end.

(** [remove_vertices_by_mask]: the vertices whose mask entry is set go,
    with every triangle that uses one of them; the others are renumbered. *)
Fixpoint renumber (mask : list bool) (next : Z) : list (option Z) :=
  match mask with
  | [] => []
  | true :: rest => None :: renumber rest next
  | false :: rest => Some next :: renumber rest (next + 1)
  end.

Definition new_index (table : list (option Z)) (i : Z) : option Z :=
  if (i <? 0)%Z then None else nth (Z.to_nat i) table None.

Definition remap_face (table : list (option Z)) (f : triangle) : option triangle :=
  let '(a, b, c) := f in
  match new_index table a, new_index table b, new_index table c with
  | Some a', Some b', Some c' => Some (a', b', c')
  | _, _, _ => None
  end.

Fixpoint remap_faces (table : list (option Z)) (fs : list triangle) : list triangle :=
  match fs with
  | [] => []
  | f :: rest =>
      match remap_face table f with
      | Some f' => f' :: remap_faces table rest
      | None => remap_faces table rest
      end
  end.

Fixpoint keep_unmasked {A : Type} (mask : list bool) (l : list A) {struct l} : list A :=
  match l, mask with
  | [], _ => []
  | x :: rest, true :: mask' => keep_unmasked mask' rest
  | x :: rest, false :: mask' => x :: keep_unmasked mask' rest
  | x :: rest, [] => x :: rest
  end.

Definition pad_mask (n : nat) (mask : list bool) : list bool :=
  firstn n (mask ++ repeat false n).

Definition remove_by_mask (mask : list bool) (m : Mesh) : Mesh :=
  let mask := pad_mask (length (mesh_vertices m)) mask in
  mkMesh (keep_unmasked mask (mesh_vertices m))
         (remap_faces (renumber mask 0) (mesh_faces m)).

Definition degenerate (f : triangle) : bool :=
  let '(a, b, c) := f in (a =? b)%Z || (b =? c)%Z || (a =? c)%Z.

Definition remove_degenerate (m : Mesh) : Mesh :=
  mkMesh (mesh_vertices m) (List.filter (fun f => negb (degenerate f)) (mesh_faces m)).

(** Two triangles are duplicates when one is a rotation of the other. *)
Definition rotate_min (f : triangle) : triangle :=
  let '(a, b, c) := f in
  if (a <=? b)%Z && (a <=? c)%Z then (a, b, c)
  else if (b <=? c)%Z then (b, c, a) else (c, a, b).

Definition triangle_eqb (f g : triangle) : bool :=
  let '(a, b, c) := f in
  let '(a', b', c') := g in
  (a =? a')%Z && (b =? b')%Z && (c =? c')%Z.

Fixpoint dedup {A : Type} (eqb : A -> A -> bool) (seen l : list A) : list A :=
  match l with
  | [] => []
  | x :: rest =>
      if existsb (eqb x) seen then dedup eqb seen rest
      else x :: dedup eqb (x :: seen) rest
  end.

Definition same_triangle (f g : triangle) : bool :=
  triangle_eqb (rotate_min f) (rotate_min g).

Definition remove_dup_triangles (m : Mesh) : Mesh :=
  mkMesh (mesh_vertices m) (dedup same_triangle [] (mesh_faces m)).

Definition vec3_eqb (p q : vec3) : bool :=
  let '(px, py, pz) := p in
  let '(qx, qy, qz) := q in
  Qeq_bool px qx && Qeq_bool py qy && Qeq_bool pz qz.

(** The index of the first vertex equal to [p] in [l], counted from [i]. *)
Fixpoint first_index (p : vec3) (l : list vec3) (i : Z) : Z :=
  match l with
  | [] => i
  | q :: rest => if vec3_eqb p q then i else first_index p rest (i + 1)
  end.

Definition merged_index (vs kept : list vec3) (i : Z) : Z :=
  if (i <? 0)%Z then i
  else match nth_error vs (Z.to_nat i) with
       | Some p => first_index p kept 0
       | None => i
       end.

Definition remove_dup_vertices (m : Mesh) : Mesh :=
  let kept := dedup vec3_eqb [] (mesh_vertices m) in
  let f := merged_index (mesh_vertices m) kept in
  mkMesh kept (map (fun '(a, b, c) => (f a, f b, f c)) (mesh_faces m)).

(** Undirected edges, smaller index first. *)
Definition edge : Type := (Z * Z)%type.

Definition mk_edge (a b : Z) : edge := if (a <=? b)%Z then (a, b) else (b, a).

Definition face_edges (f : triangle) : list edge :=
  let '(a, b, c) := f in [mk_edge a b; mk_edge b c; mk_edge c a].

Definition edge_eqb (e e' : edge) : bool :=
  (fst e =? fst e')%Z && (snd e =? snd e')%Z.

Definition all_edges (fs : list triangle) : list edge := flat_map face_edges fs.

Definition edge_count (es : list edge) (e : edge) : nat :=
  length (List.filter (edge_eqb e) es).

(** Every triangle on an edge that more than two triangles share goes. *)
Definition remove_non_manifold (m : Mesh) : Mesh :=
  let es := all_edges (mesh_faces m) in
  mkMesh (mesh_vertices m)
         (List.filter (fun f => forallb (fun e => Nat.leb (edge_count es e) 2) (face_edges f))
                      (mesh_faces m)).

(** trimesh's test: the mesh has faces and every edge is shared by
    exactly two of them. *)
Definition watertight (m : Mesh) : bool :=
  let es := all_edges (mesh_faces m) in
  negb (Nat.eqb (length (mesh_faces m)) 0)
  && forallb (fun e => Nat.eqb (edge_count es e) 2) es.

(** Hole filling: a hole bounded by exactly three edges is closed with
    one triangle, wound against the boundary. *)
Definition directed_edges (f : triangle) : list edge :=
  let '(a, b, c) := f in [(a, b); (b, c); (c, a)].

Definition boundary (fs : list triangle) : list edge :=
  let es := all_edges fs in
  List.filter (fun '(a, b) => Nat.eqb (edge_count es (mk_edge a b)) 1)
              (flat_map directed_edges fs).

Definition fill (m : Mesh) : Mesh :=
  match boundary (mesh_faces m) with
  | [(a, b); (c, d); (e, f)] =>
      let third := if (c =? b)%Z then d else f in
      mkMesh (mesh_vertices m) (mesh_faces m ++ [(b, a, third)])
  | _ => m
  end.

Definition extents (m : Mesh) : list Q :=
  let '(x0, y0, z0) := lower (mesh_vertices m) in
  let '(x1, y1, z1) := upper (mesh_vertices m) in
  [Qred (x1 - x0); Qred (y1 - y0); Qred (z1 - z0)].

(** Voxels: the cells of side [pitch], counted from the lower corner,
    that hold a vertex. *)
Record Grid : Type := mkGrid { grid_origin : vec3; grid_pitch : Q; grid_cells : list (Z * Z * Z) }.

Definition cell_of (origin : vec3) (pitch : Q) (p : vec3) : Z * Z * Z :=
  let '(ox, oy, oz) := origin in
  let '(px, py, pz) := p in
  (Qfloor ((px - ox) / pitch), Qfloor ((py - oy) / pitch), Qfloor ((pz - oz) / pitch)).

Definition voxelize (m : Mesh) (pitch : Q) : Grid :=
  let origin := lower (mesh_vertices m) in
  mkGrid origin pitch
         (dedup triangle_eqb [] (map (cell_of origin pitch) (mesh_vertices m))).

Definition cell_box (g : Grid) (c : Z * Z * Z) : vec3 * vec3 :=
  let '(ox, oy, oz) := grid_origin g in
  let '(i, j, k) := c in
  let h := grid_pitch g in
  ((Qred (ox + inject_Z i * h), Qred (oy + inject_Z j * h), Qred (oz + inject_Z k * h)),
   (Qred (ox + inject_Z (i + 1) * h), Qred (oy + inject_Z (j + 1) * h),
    Qred (oz + inject_Z (k + 1) * h))).

Definition grid_boxes (g : Grid) : list (vec3 * vec3) := map (cell_box g) (grid_cells g).

Fixpoint boxes_mesh (bs : list (vec3 * vec3)) (o : Z) : Mesh :=
  match bs with
  | [] => mkMesh [] []
  | (lo, hi) :: rest =>
      let m := boxes_mesh rest (o + 8) in
      mkMesh (box_corners lo hi ++ mesh_vertices m) (box_faces o ++ mesh_faces m)
  end.

(** One step of Laplacian smoothing with weight 1/2: every vertex moves
    half way to the mean of the vertices it shares a triangle with. *)
Definition uses (i : Z) (f : triangle) : bool :=
  let '(a, b, c) := f in (a =? i)%Z || (b =? i)%Z || (c =? i)%Z.

Definition neighbours (fs : list triangle) (i : Z) : list Z :=
  dedup Z.eqb [i]
        (flat_map (fun '(a, b, c) => [a; b; c]) (List.filter (uses i) fs)).

Definition smooth_vertex (m : Mesh) (i : nat) (p : vec3) : vec3 :=
  match neighbours (mesh_faces m) (Z.of_nat i) with
  | [] => p
  | ns =>
      let ps := map (fun j => nth (Z.to_nat j) (mesh_vertices m) p) ns in
      let '(x, y, z) := p in
      (Qred ((x + mean (xs ps)) / 2), Qred ((y + mean (ys ps)) / 2),
       Qred ((z + mean (zs ps)) / 2))
  end.

Definition smooth (m : Mesh) : Mesh :=
  mkMesh (map (fun '(i, p) => smooth_vertex m i p)
              (combine (seq 0 (length (mesh_vertices m))) (mesh_vertices m)))
         (mesh_faces m).

(** Six times the signed volume: the sum of the determinants of the
    triangles' corners. *)
Definition det3 (p q r : vec3) : Q :=
  let '(px, py, pz) := p in
  let '(qx, qy, qz) := q in
  let '(rx, ry, rz) := r in
  px * (qy * rz - qz * ry) - py * (qx * rz - qz * rx) + pz * (qx * ry - qy * rx).

Definition volume (m : Mesh) : Q :=
  let v := fun i => nth (Z.to_nat i) (mesh_vertices m) (0, 0, 0)%Q in
  Qred (qsum (map (fun '(a, b, c) => det3 (v a) (v b) (v c)) (mesh_faces m)) / 6).

(** The exporters are chosen by what follows the last dot of the path. *)
Definition has_exporter (path : string) : bool :=
  let ty := List.last (PyStr.split "."%char path) "" in
  existsb (String.eqb ty) ["obj"; "ply"; "stl"; "off"; "glb"].

#[export] Instance libs : Libs := {
  float := Q;
  float_of_Z := inject_Z;
  float_of_decimal := fun q => q;
  fmul := fun a b => Qred (a * b);
  fdiv := fun a b => Qred (a / b);
  flt := qlt;
  np_mean := mean;
  np_max := maximum;
  np_quantile := quantile;
  PointCloud := Cloud;
  empty_point_cloud := mkCloud [] [];
  pcd_points := cloud_points;
  has_normals := cloud_has_normals;
  compute_nearest_neighbor_distance := nearest_neighbor_distance;
  o3d_estimate_normals := set_normals;
  orient_normals_consistent_tangent_plane := fun k c => c;
  TriangleMesh := Mesh;
  o3d_mesh := mkMesh;
  vertices := mesh_vertices;
  triangles := mesh_faces;
  create_from_point_cloud_poisson := poisson;
  remove_vertices_by_mask := remove_by_mask;
  remove_degenerate_triangles := remove_degenerate;
  remove_duplicated_triangles := remove_dup_triangles;
  remove_duplicated_vertices := remove_dup_vertices;
  remove_non_manifold_edges := remove_non_manifold;
  Trimesh := Mesh;
  VoxelGrid := Grid;
  Boxes := list (vec3 * vec3);
  trimesh_Trimesh := mkMesh;
  tm_vertices := mesh_vertices;
  tm_faces := mesh_faces;
  is_watertight := watertight;
  fill_holes := fill;
  bounding_box_extents := extents;
  voxelized := voxelize;
  as_boxes := grid_boxes;
  to_mesh := fun bs => remove_dup_vertices (boxes_mesh bs 0);
  filter_laplacian := smooth;
  tm_volume := volume;
  tm_area := fun _ => 0%Q;
  exporter_available := has_exporter
}.

(** Sample inputs. *)
Definition tetra_points : list vec3 :=
  [ (0, 0, 0); (1, 0, 0); (0, 1, 0); (0, 0, 1) ]%Q.

Definition tetra : @TriangleMesh libs :=
  mkMesh tetra_points [ (0, 2, 1); (0, 1, 3); (1, 2, 3); (0, 3, 2) ]%Z.

Definition open_tetra : @TriangleMesh libs :=
  mkMesh tetra_points [ (0, 2, 1); (0, 1, 3); (1, 2, 3) ]%Z.

Definition one_triangle : @TriangleMesh libs :=
  mkMesh [ (0, 0, 0); (1, 0, 0); (0, 1, 0) ]%Q [ (0, 1, 2)%Z ].

Definition open_square : @TriangleMesh libs :=
  mkMesh [ (0, 0, 0); (1, 0, 0); (1, 1, 0); (0, 1, 0) ]%Q [ (0, 1, 2); (0, 2, 3) ]%Z.

(** A mesh with a duplicated vertex, a degenerate and a repeated triangle. *)
Definition messy : @TriangleMesh libs :=
  mkMesh (tetra_points ++ [ (0, 0, 0)%Q ])
         [ (0, 2, 1); (0, 1, 3); (1, 2, 3); (0, 3, 2); (2, 1, 0); (1, 1, 2); (4, 1, 2) ]%Z.

Definition two_points : @PointCloud libs := mkCloud [ (0, 0, 0); (1, 1, 1) ]%Q [].

Definition tetra_cloud : @PointCloud libs := mkCloud tetra_points [].

(** Seven of the eight corners of a box: the eighth has no support. *)
Definition seven_corners (x y z : Q) : @PointCloud libs :=
  mkCloud [ (0, 0, 0); (0, 0, z); (0, y, 0); (0, y, z); (x, 0, 0); (x, 0, z); (x, y, 0) ]%Q [].

Definition no_points : @PointCloud libs := mkCloud [] [].

Definition empty_world : @World libs := mkWorld ∅ ∅ [] [].

Definition world_with (path : string) (c : @PointCloud libs) : @World libs :=
  mkWorld ∅ {[ path := PlyCloud c ]} [] [].

End RefLibs.

(** ** Readings of the call log, and the formats of the command line *)

Section CallKinds.

Context {L : Libs}.

(** The calls of the Mesh Cleaner. *)
Definition is_removal_call (c : Call) : bool :=
  match c with
  | call_remove_vertices_by_mask _
  | call_remove_degenerate_triangles
  | call_remove_duplicated_triangles
  | call_remove_duplicated_vertices
  | call_remove_non_manifold_edges => true
  | _ => false
  end.

(** The calls of Watertight Repair. *)
Definition is_repair_call (c : Call) : bool :=
  match c with
  | call_fill_holes
  | call_voxelized _
  | call_as_boxes
  | call_to_mesh
  | call_filter_laplacian => true
  | _ => false
  end.

(** The calls of the Normal Estimator. *)
Definition is_estimator_call (c : Call) : bool :=
  match c with
  | call_compute_nearest_neighbor_distance
  | call_estimate_normals _ _
  | call_orient_normals_consistent_tangent_plane _ => true
  | _ => false
  end.

Definition is_export_call (c : Call) : bool :=
  match c with
  | call_export _ => true
  | _ => false
  end.

(** The four topology passes of the cleaner. *)
Definition topology_pass_calls : list Call :=
  [call_remove_degenerate_triangles; call_remove_duplicated_triangles;
   call_remove_duplicated_vertices; call_remove_non_manifold_edges].

(** The three calls of the Normal Estimator on [pcd]. *)
Definition estimator_calls (pcd : PointCloud) : list Call :=
  let radius := fmul (np_mean (compute_nearest_neighbor_distance pcd)) (float_of_Z 2) in
  [call_compute_nearest_neighbor_distance;
   call_estimate_normals radius 30;
   call_orient_normals_consistent_tangent_plane 15].

End CallKinds.


(** More sample inputs for the executable library. *)
Module RefSamples.

(** The corners of a tetrahedron with a normal for every point. *)
Definition tetra_with_normals : @PointCloud RefLibs.libs :=
  RefLibs.mkCloud RefLibs.tetra_points
    [ (0, 0, -1); (1, 0, 0); (0, 1, 0); (0, 0, 1) ]%Q.

End RefSamples.

(** ** The GUI application ([gui/app.py])

    [App] keeps the image last clicked and the points selected so far.
    Images, arrays and drawing are PIL's, NumPy's and OpenCV's; the mask
    and point cloud generators are methods of [SAMProcessor], of
    [sam_integration/sam_processor.py], which is not among the sources:
    they are operations of an interface.  A generator either returns or
    raises; [inl msg] stands for an exception [e] with [str(e) = msg]. *)

Class AppLibs {L : Libs} : Type := {
  Image : Type;
  Array : Type;
  Mask : Type;
  np_array : Image -> Array;
  cv2_circle : Array -> Z * Z -> Z -> Z * Z * Z -> Z -> Array;
  Image_fromarray : Array -> Image;
  generate_mask : Image -> list (Z * Z) -> World -> World * (string + Mask);
  generate_point_cloud : Image -> Mask -> string -> World -> World * (string + string);
  exn_str : Exn -> string                  (* [str(e)] for the converter's exceptions *)
}.

(** [str(n)] for Python integers. *)
Definition str_of_nat (n : nat) : string := NilZero.string_of_uint (Nat.to_uint n).
Definition str_of_Z (z : Z) : string := NilZero.string_of_int (Z.to_int z).

Definition newline : string := String (ascii_of_nat 10) "".

Section App.

Context {L : Libs} {A : AppLibs}.

Record App : Type := mkApp {
  current_image : option Image;
  selected_points : list (Z * Z)
}.

(** [App()] *)
Definition App_new : App := mkApp None [].

(** The loop that draws a filled red circle of radius 5 at every point. *)
Definition draw_points (points : list (Z * Z)) (img_array : Array) : Array :=
  fold_left (fun arr point => cv2_circle arr point 5%Z (255, 0, 0)%Z (-1)%Z) points img_array.

Definition click_status (n : nat) (x y : Z) : string :=
  String.append "Selected "
    (String.append (str_of_nat n)
       (String.append " point(s). Last point: ("
          (String.append (str_of_Z x)
             (String.append ", " (String.append (str_of_Z y) ")"))))).

Definition process_image_click (self : App) (image : option Image) (evt_index : Z * Z)
  : App * (option Image * string) :=
  match image with
  | None => (self, (None, "Please upload an image first"))
  | Some img =>
      let '(x, y) := evt_index in
      let points := selected_points self ++ [(x, y)] in
      let img_array := draw_points points (np_array img) in
      (mkApp (Some img) points,
       (Some (Image_fromarray img_array), click_status (length points) x y))
  end.

Definition clear_points (self : App) : App * (option Image * string) :=
  let self' := mkApp (current_image self) [] in
  match current_image self' with
  | Some img => (self', (Some img, "Points cleared"))
  | None => (self', (None, "Points cleared"))
  end.

(** The world of [generate_3d]: the converter's world and the progress
    reports made so far. *)
Record Ui : Type := mkUi {
  ui_world : World;
  ui_progress : list (Q * string)
}.

Definition progress (fraction : Q) (desc : string) (ui : Ui) : Ui :=
  mkUi (ui_world ui) (ui_progress ui ++ [(fraction, desc)]).

Definition with_world (w : World) (ui : Ui) : Ui := mkUi w (ui_progress ui).

Definition success_status (ply_path mesh_path : string) : string :=
  String.append "Success! Generated:"
    (String.append newline
       (String.append "- Point cloud: "
          (String.append ply_path
             (String.append newline (String.append "- Mesh: " mesh_path))))).

Definition error_status (msg : string) : string := String.append "Error: " msg.

(** [generate_3d]: the body of the [try] is the chain of matches; every
    [inl] is the [except Exception] branch. *)
Definition generate_3d (self : App) (image : option Image) (ui : Ui)
  : Ui * (option string * option string * string) :=
  match image with
  | None => (ui, (None, None, "Please upload an image first"))
  | Some img =>
      match selected_points self with
      | [] => (ui, (None, None, "Please select at least one point on the image"))
      | _ :: _ =>
          let ui := progress (1 # 10) "Generating mask from points..." ui in
          match generate_mask img (selected_points self) (ui_world ui) with
          | (w, inl msg) => (with_world w ui, (None, None, error_status msg))
          | (w, inr mask) =>
              let ui := progress (3 # 10) "Running SAM 3D Objects inference..."
                          (with_world w ui) in
              match generate_point_cloud img mask "data/output" (ui_world ui) with
              | (w, inl msg) => (with_world w ui, (None, None, error_status msg))
              | (w, inr ply_path) =>
                  let ui := progress (7 # 10) "Converting to watertight mesh..."
                              (with_world w ui) in
                  match convert_to_watertight_mesh ply_path "data/output" default_depth
                          true default_file_format (ui_world ui) with
                  | (w, inl e) =>
                      (with_world w ui, (None, None, error_status (exn_str e)))
                  | (w, inr mesh_path) =>
                      let ui := progress 1 "Complete!" (with_world w ui) in
                      (ui, (Some ply_path, Some mesh_path,
                            success_status ply_path mesh_path))
                  end
              end
          end
      end
  end.

(** The progress reports of a complete run, in order. *)
Definition progress_steps : list (Q * string) :=
  [ (1 # 10, "Generating mask from points...");
    (3 # 10, "Running SAM 3D Objects inference...");
    (7 # 10, "Converting to watertight mesh...");
    (1, "Complete!") ]%Q.

(** A session of clicks on the input image, each with the image shown. *)
Definition click_all (self : App) (clicks : list (option Image * (Z * Z))) : App :=
  fold_left (fun app click => fst (process_image_click app (fst click) (snd click)))
            clicks self.

(** The coordinates of the clicks that came with an image. *)
Definition clicked (clicks : list (option Image * (Z * Z))) : list (Z * Z) :=
  flat_map (fun click => match fst click with Some _ => [snd click] | None => [] end)
           clicks.

End App.

(** An executable application on the executable library: an image is a
    number and the circles drawn on it; the mask is the points; the
    point cloud generator writes the points, lifted by their index, to
    [<output_dir>/object.ply].  Image 0 has no object to find. *)
Module RefApp.

Definition picture : Type := (nat * list (Z * Z))%type.

Definition cloud_of (mask : list (Z * Z)) : @PointCloud RefLibs.libs :=
  RefLibs.mkCloud
    (map (fun '(i, (x, y)) => (inject_Z x, inject_Z y, inject_Z (Z.of_nat i)))
         (combine (seq 0 (length mask)) mask))
    [].

Definition find_mask (img : picture) (points : list (Z * Z)) (w : @World RefLibs.libs)
  : @World RefLibs.libs * (string + list (Z * Z)) :=
  match fst img with
  | O => (w, inl "no object at the selected points")
  | S _ => (w, inr points)
  end.

Definition write_cloud (img : picture) (mask : list (Z * Z)) (output_dir : string)
    (w : @World RefLibs.libs) : @World RefLibs.libs * (string + string) :=
  let path := PosixPath.os_path_join output_dir "object.ply" in
  (mkWorld (fs_dirs w) (<[ path := PlyCloud (cloud_of mask) ]> (fs_files w))
           (stdout w) (calls w),
   inr path).

Definition exn_message (e : Exn) : string :=
  match e with
  | ValueError => "invalid suffix or empty name"
  | FileNotFoundError => "no such file or directory"
  | FileExistsError => "file exists"
  | ExportError => "exporter not available"
  end.

#[export] Instance app_libs : @AppLibs RefLibs.libs := {
  Image := picture;
  Array := picture;
  Mask := list (Z * Z);
  np_array := fun img => img;
  cv2_circle := fun arr center radius color thickness => (fst arr, snd arr ++ [center]);
  Image_fromarray := fun arr => arr;
  generate_mask := find_mask;
  generate_point_cloud := write_cloud;
  exn_str := exn_message
}.

Definition new_ui : @Ui RefLibs.libs := mkUi RefLibs.empty_world [].

Definition photo (n : nat) : @Image RefLibs.libs app_libs := (n, []).

Definition session : list (option (@Image RefLibs.libs app_libs) * (Z * Z)) :=
  [ (Some (photo 1), (0, 0)); (Some (photo 1), (4, 0)); (None, (9, 9));
    (Some (photo 2), (0, 4)); (Some (photo 2), (2, 2)) ]%Z.

Definition four_clicks : @App RefLibs.libs app_libs := click_all App_new session.

End RefApp.

(** ** The installation test ([test_installation.py])

    What can be imported, whether CUDA is there and which paths exist
    make up the environment.  [import_module] either returns the module
    (with its [__version__], if it has one) or raises [ImportError]; other
    exceptions of an import are not modelled. *)

Module InstallationTest.

Inductive Imported : Type :=
| ImportOk (version : option string)
| ImportError (msg : string).

Inductive Cuda : Type :=
| CudaAvailable (device_name cuda_version : string)
| CudaUnavailable
| CudaException (msg : string).

Record Env : Type := mkEnv {
  import_module : string -> Imported;
  torch_cuda : Cuda;                       (* looked at once [torch] is imported *)
  os_path_exists : string -> bool
}.

(** The printed lines: plain text where the source prints plain text, a
    constructor for each line with a check mark, a cross or a format. *)
Inductive Line : Type :=
| Text (s : string)
| Installed (display_name version : string)
| NotInstalled (display_name : string)
| ErrorDetail (msg : string)
| CudaIsAvailable (device_name : string)
| CudaVersion (cuda_version : string)
| CudaNotAvailable
| CudaCheckError (msg : string)
| DirectoryExists (dir_path : string)
| DirectoryMissing (dir_path : string)
| SamInstalled
| SamNotInstalled
| Summary (status : bool) (component : string)
| AllChecksPassed
| SomeMissing.

(** Printing: the lines and the value. *)
Definition Out (A : Type) : Type := (list Line * A)%type.

Definition out_ret {A : Type} (a : A) : Out A := ([], a).

Definition out_bind {A B : Type} (m : Out A) (k : A -> Out B) : Out B :=
  let '(l1, a) := m in
  let '(l2, b) := k a in
  (l1 ++ l2, b).

Definition print (l : Line) : Out unit := ([l], tt).

Fixpoint repeat_string (s : string) (n : nat) : string :=
  match n with
  | O => ""
  | S n' => String.append s (repeat_string s n')
  end.

(** [package_name or module_name] *)
Definition display_name (module_name : string) (package_name : option string) : string :=
  match package_name with
  | Some name => if String.eqb name "" then module_name else name
  | None => module_name
  end.

Definition test_import (env : Env) (module_name : string) (package_name : option string)
  : Out bool :=
  let display := display_name module_name package_name in
  match import_module env module_name with
  | ImportOk version =>
      out_bind (print (Installed display
                         (match version with Some v => v | None => "unknown version" end)))
               (fun _ => out_ret true)
  | ImportError e =>
      out_bind (print (NotInstalled display))
               (fun _ => out_bind (print (ErrorDetail e)) (fun _ => out_ret false))
  end.

Definition check_cuda (env : Env) : Out bool :=
  match import_module env "torch" with
  | ImportError e => out_bind (print (CudaCheckError e)) (fun _ => out_ret false)
  | ImportOk _ =>
      match torch_cuda env with
      | CudaAvailable device_name cuda_version =>
          out_bind (print (CudaIsAvailable device_name))
                   (fun _ => out_bind (print (CudaVersion cuda_version))
                                      (fun _ => out_ret true))
      | CudaUnavailable => out_bind (print CudaNotAvailable) (fun _ => out_ret false)
      | CudaException e => out_bind (print (CudaCheckError e)) (fun _ => out_ret false)
      end
  end.

Definition required_directories : list string :=
  ["data/input"; "data/output"; "examples"; "src/gui"; "src/sam_integration";
   "src/mesh_processing"].

(** The loop of [check_directories], with [all_exist] as it stands. *)
Fixpoint check_directories_loop (env : Env) (dirs : list string) (all_exist : bool)
  : Out bool :=
  match dirs with
  | [] => out_ret all_exist
  | dir_path :: rest =>
      if os_path_exists env dir_path
      then out_bind (print (DirectoryExists dir_path))
                    (fun _ => check_directories_loop env rest all_exist)
      else out_bind (print (DirectoryMissing dir_path))
                    (fun _ => check_directories_loop env rest false)
  end.

Definition check_directories (env : Env) : Out bool :=
  check_directories_loop env required_directories true.

Definition check_sam_3d_objects (env : Env) : Out bool :=
  match import_module env "sam_3d_objects.inference" with
  | ImportOk _ => out_bind (print SamInstalled) (fun _ => out_ret true)
  | ImportError _ =>
      out_bind (print SamNotInstalled)
        (fun _ => out_bind
                    (print (Text "  Install from: https://github.com/facebookresearch/sam-3d-objects"))
                    (fun _ => out_ret false))
  end.

(** [all(test_import(mod, name) for mod, name in modules)]: the generator
    is consumed up to the first [False]. *)
Fixpoint all_test_import (env : Env) (modules : list (string * string)) : Out bool :=
  match modules with
  | [] => out_ret true
  | (mod_, name) :: rest =>
      out_bind (test_import env mod_ (Some name))
               (fun ok => if ok then all_test_import env rest else out_ret false)
  end.

Definition core_modules : list (string * string) :=
  [("numpy", "NumPy"); ("PIL", "Pillow"); ("torch", "PyTorch");
   ("torchvision", "TorchVision")].

Definition gui_modules : list (string * string) :=
  [("gradio", "Gradio"); ("cv2", "OpenCV")].

Definition mesh_modules : list (string * string) :=
  [("open3d", "Open3D"); ("trimesh", "Trimesh"); ("scipy", "SciPy");
   ("sklearn", "scikit-learn")].

Definition rule (c : string) : Line := Text (repeat_string c 70).

Definition heading (title : string) : Out unit :=
  out_bind (print (Text (String.append newline title))) (fun _ => print (rule "-")).

Fixpoint print_summary (results : list (string * bool)) : Out unit :=
  match results with
  | [] => out_ret tt
  | (component, status) :: rest =>
      out_bind (print (Summary status component)) (fun _ => print_summary rest)
  end.

Fixpoint print_lines (ls : list Line) : Out unit :=
  match ls with
  | [] => out_ret tt
  | l :: rest => out_bind (print l) (fun _ => print_lines rest)
  end.

Definition main (env : Env) : Out Z :=
  out_bind (print_lines [rule "="; Text "2D to 3D Converter - Installation Test"; rule "="])
  (fun _ => out_bind (heading "[1/4] Checking Core Dependencies...")
  (fun _ => out_bind (all_test_import env core_modules)
  (fun core_ok => out_bind (heading "[2/4] Checking GUI Dependencies...")
  (fun _ => out_bind (all_test_import env gui_modules)
  (fun gui_ok => out_bind (heading "[3/4] Checking 3D Processing Dependencies...")
  (fun _ => out_bind (all_test_import env mesh_modules)
  (fun mesh_ok => out_bind (heading "[4/4] Checking SAM 3D Objects...")
  (fun _ => out_bind (check_sam_3d_objects env)
  (fun sam_ok => out_bind (heading "[5/5] Checking CUDA...")
  (fun _ => out_bind (check_cuda env)
  (fun cuda_ok => out_bind (heading "[6/6] Checking Project Structure...")
  (fun _ => out_bind (check_directories env)
  (fun dirs_ok =>
     let results :=
       [("Core Dependencies", core_ok); ("GUI Dependencies", gui_ok);
        ("3D Processing", mesh_ok); ("SAM 3D Objects", sam_ok);
        ("CUDA Support", cuda_ok); ("Project Structure", dirs_ok)] in
     out_bind (print_lines [Text (String.append newline (repeat_string "=" 70));
                            Text "Summary"; rule "="])
     (fun _ => out_bind (print_summary results)
     (fun _ =>
        let all_ok := forallb snd results in
        if all_ok
        then out_bind (print_lines
                         [AllChecksPassed;
                          Text (String.append newline "Next steps:");
                          Text "  1. Download SAM 3D Objects checkpoints";
                          Text "  2. Run: python main.py --gui"])
                      (fun _ => out_ret 0%Z)
        else out_bind (print_lines
                         [SomeMissing;
                          Text (String.append newline "Please check:");
                          Text "  - Run: pip install -r requirements.txt";
                          Text "  - Install SAM 3D Objects: https://github.com/facebookresearch/sam-3d-objects";
                          Text "  - See SETUP.md for detailed instructions"])
                      (fun _ => out_ret 1%Z)))))))))))))))).

(** Readings of an environment and of the printed lines. *)
Definition importable (env : Env) (module_name : string) : bool :=
  match import_module env module_name with
  | ImportOk _ => true
  | ImportError _ => false
  end.

Definition cuda_available (env : Env) : bool :=
  importable env "torch"
  && match torch_cuda env with CudaAvailable _ _ => true | _ => false end.



Definition directory_line (env : Env) (dir_path : string) : Line :=
  if os_path_exists env dir_path then DirectoryExists dir_path
  else DirectoryMissing dir_path.

(** The lines [test_import] prints for each module of a list. *)
Definition import_lines (env : Env) (modules : list (string * string)) : list Line :=
  flat_map (fun m => fst (test_import env (fst m) (Some (snd m)))) modules.

(** Everything the installation test wants. *)
Definition all_ok (env : Env) : bool :=
  forallb (fun m => importable env (fst m)) core_modules
  && forallb (fun m => importable env (fst m)) gui_modules
  && forallb (fun m => importable env (fst m)) mesh_modules
  && importable env "sam_3d_objects.inference"
  && cuda_available env
  && forallb (os_path_exists env) required_directories.

(** A machine with every package and directory but no GPU. *)
Definition cpu_only : Env :=
  mkEnv (fun _ => ImportOk (Some "1.0")) CudaUnavailable (fun _ => true).

(** A machine on which only NumPy is missing. *)
Definition no_numpy : Env :=
  mkEnv (fun m => if String.eqb m "numpy" then ImportError "No module named 'numpy'"
                  else ImportOk None)
        (CudaAvailable "GPU" "12.1") (fun _ => true).

End InstallationTest.

(** * Properties *)

(** ** Python strings *)

Module PyStrFacts.
Import PyStr.

Lemma append_nil (b : string) : String.append "" b = b.
Proof. reflexivity. Qed.

Lemma append_cons (a : ascii) (s b : string) :
  String.append (String a s) b = String a (String.append s b).
Proof. reflexivity. Qed.

Ltac str_simpl := rewrite ?append_cons, ?append_nil; simpl.

Lemma append_empty_r (s : string) : String.append s "" = s.
Proof. induction s as [|a s IH]; str_simpl; [reflexivity | now rewrite IH]. Qed.

Lemma append_assoc (a b c : string) :
  String.append (String.append a b) c = String.append a (String.append b c).
Proof. induction a as [|x a IH]; str_simpl; [reflexivity | now rewrite IH]. Qed.

Lemma length_append (a b : string) :
  String.length (String.append a b) = (String.length a + String.length b)%nat.
Proof. induction a as [|x a IH]; str_simpl; [reflexivity | now rewrite IH]. Qed.

Lemma split_nonempty (c : ascii) (s : string) : split c s <> [].
Proof.
  induction s as [|a s IH]; simpl; [discriminate |].
  destruct (Ascii.eqb a c); [discriminate |].
  destruct (split c s); [contradiction | discriminate].
Qed.

(** Splitting distributes over a separator. *)
Lemma split_app_sep (c : ascii) (a b : string) :
  split c (String.append a (String c b)) = split c a ++ split c b.
Proof.
  induction a as [|x a IH]; str_simpl.
  - now rewrite Ascii.eqb_refl.
  - destruct (Ascii.eqb x c); [now rewrite IH |].
    rewrite IH. pose proof (split_nonempty c a) as Hne.
    destruct (split c a) as [|h t]; [contradiction | reflexivity].
Qed.

Lemma split_no_sep (c : ascii) (s : string) :
  contains c s = false -> split c s = [s].
Proof.
  induction s as [|a s IH]; simpl; [reflexivity |].
  intros H. apply orb_false_iff in H as [Ha Hs].
  rewrite Ha, (IH Hs). reflexivity.
Qed.

(** No piece of a split holds the separator. *)
Lemma split_pieces (c : ascii) (s : string) :
  Forall (fun x => contains c x = false) (split c s).
Proof.
  induction s as [|a s IH]; simpl; [repeat constructor |].
  destruct (Ascii.eqb a c) eqn:E; [constructor; [reflexivity | exact IH] |].
  destruct (split c s) as [|h t]; [repeat constructor; simpl; now rewrite E |].
  inversion IH as [|? ? Hh Ht]; subst. constructor; [| exact Ht].
  simpl. now rewrite E, Hh.
Qed.

Lemma contains_append (c : ascii) (a b : string) :
  contains c (String.append a b) = contains c a || contains c b.
Proof.
  induction a as [|x a IH]; str_simpl; [reflexivity |].
  now rewrite IH, orb_assoc.
Qed.

Lemma contains_take (c : ascii) (n : nat) (s : string) :
  contains c s = false -> contains c (take n s) = false.
Proof.
  revert n; induction s as [|a s IH]; intros [|n] H; simpl in *; try reflexivity.
  apply orb_false_iff in H as [Ha Hs]. now rewrite Ha, (IH n Hs).
Qed.

Lemma take_drop (n : nat) (s : string) : String.append (take n s) (drop n s) = s.
Proof.
  revert n; induction s as [|a s IH]; intros [|n]; simpl; str_simpl; try reflexivity.
  now rewrite IH.
Qed.

Lemma take_length_append (a b : string) : take (String.length a) (String.append a b) = a.
Proof. induction a as [|x a IH]; str_simpl; [now destruct b | now rewrite IH]. Qed.


Lemma rfind_no (c : ascii) (s : string) : contains c s = false -> rfind c s = None.
Proof.
  induction s as [|a s IH]; simpl; [reflexivity |].
  intros H. apply orb_false_iff in H as [Ha Hs]. now rewrite (IH Hs), Ha.
Qed.

(** The last occurrence: a separator followed by a piece without one. *)
Lemma rfind_append (c : ascii) (a b : string) :
  contains c b = false ->
  rfind c (String.append a (String c b)) = Some (String.length a).
Proof.
  intros Hb. induction a as [|x a IH]; str_simpl.
  - now rewrite (rfind_no c b Hb), Ascii.eqb_refl.
  - now rewrite IH.
Qed.

Lemma endswith_append (c : ascii) (s : string) :
  endswith c s = true -> exists s', s = String.append s' (String c "").
Proof.
  induction s as [|a s IH]; simpl; [discriminate |].
  destruct s as [|b s].
  - intros H. apply Ascii.eqb_eq in H as ->. now exists "".
  - intros H. destruct (IH H) as [s' Hs']. exists (String a s'). str_simpl. now rewrite <- Hs'.
Qed.

Lemma startswith_contains (c : ascii) (s : string) :
  contains c s = false -> startswith c s = false.
Proof.
  destruct s as [|a s]; simpl; [reflexivity |].
  intros H. now apply orb_false_iff in H as [Ha _].
Qed.

Lemma join_cons (sp x : string) (l : list string) :
  l <> [] -> join sp (x :: l) = String.append x (String.append sp (join sp l)).
Proof. destruct l; [contradiction | reflexivity]. Qed.

End PyStrFacts.

(** ** Paths *)

Module PosixPathFacts.
Import PyStr PyStrFacts PosixPath.

Lemma sep_not_dot : Ascii.eqb dot sep = false.
Proof. reflexivity. Qed.

(** The components are the kept pieces of the whole string: the root is
    made of separators only. *)
Lemma tail_parse (s : string) : tail (parse s) = List.filter keep (split sep s).
Proof.
  unfold parse, splitroot.
  destruct s as [|a s]; [reflexivity |].
  destruct (Ascii.eqb a sep) eqn:Ea; [| reflexivity].
  destruct s as [|b s]; [simpl; now rewrite Ea |].
  destruct (Ascii.eqb b sep) eqn:Eb.
  - destruct (startswith sep s) eqn:Es; cbn [tail].
    + change (split sep (String a (String b s)))
        with (if Ascii.eqb a sep then "" :: split sep (String b s)
              else match split sep (String b s) with
                   | [] => [String a ""] | h :: t => String a h :: t end).
      now rewrite Ea.
    + simpl. now rewrite Ea, Eb.
  - cbn [tail].
    change (split sep (String a (String b s)))
      with (if Ascii.eqb a sep then "" :: split sep (String b s)
            else match split sep (String b s) with
                 | [] => [String a ""] | h :: t => String a h :: t end).
    now rewrite Ea.
Qed.

Lemma root_parse (s : string) :
  root (parse s) = "" \/ root (parse s) = "/" \/ root (parse s) = "//".
Proof.
  unfold parse, splitroot.
  destruct s as [|a s]; [now left |].
  destruct (Ascii.eqb a sep); [| now left].
  destruct s as [|b s]; [now right; left |].
  destruct (Ascii.eqb b sep); [| now right; left].
  destruct (startswith sep s); [now right; left | now right; right].
Qed.

Lemma forallb_component_parse (s : string) :
  forallb component (List.filter keep (split sep s)) = true.
Proof.
  apply forallb_forall. intros x Hx. apply filter_In in Hx as [Hin Hk].
  unfold component. rewrite Hk. simpl.
  pose proof (split_pieces sep s) as HF.
  rewrite List.Forall_forall in HF. now rewrite (HF x Hin).
Qed.

Lemma parse_normal (s : string) : normal (parse s) = true.
Proof.
  unfold normal. rewrite tail_parse, forallb_component_parse.
  destruct (root_parse s) as [-> | [-> | ->]]; reflexivity.
Qed.

Lemma component_keep (x : string) : component x = true -> keep x = true.
Proof. unfold component. intros H. now apply andb_prop in H as [-> _]. Qed.

Lemma component_no_sep (x : string) : component x = true -> contains sep x = false.
Proof.
  unfold component. intros H. apply andb_prop in H as [_ H].
  now apply negb_true_iff in H.
Qed.

Lemma component_first (x : string) :
  component x = true -> exists a x', x = String a x' /\ Ascii.eqb a sep = false.
Proof.
  intros H. pose proof (component_no_sep x H) as Hs.
  destruct x as [|a x']; [discriminate H |].
  exists a, x'. split; [reflexivity |].
  simpl in Hs. now apply orb_false_iff in Hs as [-> _].
Qed.

Lemma filter_keep_components (t : list string) :
  forallb component t = true -> List.filter keep t = t.
Proof.
  induction t as [|x t IH]; simpl; [reflexivity |].
  intros H. apply andb_prop in H as [Hx Ht].
  now rewrite (component_keep x Hx), (IH Ht).
Qed.

Lemma split_join (t : list string) :
  t <> [] -> forallb component t = true -> split sep (join "/" t) = t.
Proof.
  induction t as [|x t IH]; [contradiction |].
  intros _ H. simpl in H. apply andb_prop in H as [Hx Ht].
  destruct t as [|y t].
  - simpl. now apply split_no_sep, component_no_sep.
  - rewrite join_cons by discriminate.
    change (String.append "/" (join "/" (y :: t))) with (String sep (join "/" (y :: t))).
    rewrite split_app_sep, (split_no_sep sep x (component_no_sep x Hx)).
    now rewrite IH.
Qed.

Lemma join_first (t : list string) :
  t <> [] -> forallb component t = true ->
  exists a r, join "/" t = String a r /\ Ascii.eqb a sep = false.
Proof.
  destruct t as [|x t]; [contradiction |].
  intros _ H. simpl in H. apply andb_prop in H as [Hx _].
  destruct (component_first x Hx) as (a & x' & -> & Ha).
  destruct t as [|y t].
  - now exists a, x'.
  - rewrite join_cons by discriminate. rewrite append_cons. eauto.
Qed.

(** Parsing the string of a normal path gives the path back. *)
Lemma parse_str (p : PurePath) : normal p = true -> parse (str p) = p.
Proof.
  destruct p as [r t]. unfold normal. cbn [root tail]. intros H.
  apply andb_prop in H as [Hr Ht].
  destruct t as [|x t].
  - apply orb_prop in Hr as [Hr | Hr]; [apply orb_prop in Hr as [Hr | Hr] |];
      apply String.eqb_eq in Hr; subst r; reflexivity.
  - destruct (join_first (x :: t)) as (a & j & Hj & Ha); [discriminate | exact Ht |].
    pose proof (split_join (x :: t)) as Hsplit.
    rewrite Hj in Hsplit. specialize (Hsplit ltac:(discriminate) Ht).
    pose proof (filter_keep_components (x :: t) Ht) as Hkeep.
    unfold str. cbn [root tail]. rewrite Hj.
    apply orb_prop in Hr as [Hr | Hr]; [apply orb_prop in Hr as [Hr | Hr] |];
      apply String.eqb_eq in Hr; subst r.
    + rewrite append_nil. cbn [String.eqb]. unfold parse, splitroot.
      rewrite Ha, Hsplit, Hkeep. reflexivity.
    + change (String.append "/" (String a j)) with (String sep (String a j)).
      cbn [String.eqb]. unfold parse, splitroot.
      rewrite Ascii.eqb_refl, Ha, Hsplit, Hkeep. reflexivity.
    + change (String.append "//" (String a j)) with (String sep (String sep (String a j))).
      cbn [String.eqb]. unfold parse, splitroot.
      rewrite Ascii.eqb_refl. cbn [startswith]. rewrite Ha, Hsplit, Hkeep. reflexivity.
Qed.

(** *** Suffix and stem of a file name *)

Lemma name_stem_suffix (n : string) : String.append (name_stem n) (name_suffix n) = n.
Proof.
  unfold name_stem, name_suffix. destruct (suffix_index n).
  - apply take_drop.
  - apply append_empty_r.
Qed.

Lemma suffix_index_pos (n : string) (i : nat) : suffix_index n = Some i -> (0 < i)%nat.
Proof.
  unfold suffix_index. destruct (rfind dot n) as [j|]; [| discriminate].
  destruct (0 <? j)%nat eqn:E; [| discriminate]. simpl.
  destruct (j + 1 <? String.length n)%nat; [| discriminate].
  intros [= <-]. now apply Nat.ltb_lt.
Qed.

Lemma name_stem_nonempty (n : string) : n <> "" -> name_stem n <> "".
Proof.
  unfold name_stem. intros Hn. destruct (suffix_index n) as [i|] eqn:E; [| exact Hn].
  apply suffix_index_pos in E. destruct i as [|i]; [lia |].
  destruct n as [|a n]; [contradiction | discriminate].
Qed.

Lemma name_stem_no_sep (n : string) :
  contains sep n = false -> contains sep (name_stem n) = false.
Proof.
  unfold name_stem. intros H. destruct (suffix_index n); [| exact H].
  now apply contains_take.
Qed.

(** A stem that is there, a dot, a dotless extension that is there: the
    suffix starts at the dot. *)
Lemma suffix_index_new (st f : string) :
  st <> "" -> f <> "" -> contains dot f = false ->
  suffix_index (String.append st (String dot f)) = Some (String.length st).
Proof.
  intros Hst Hf Hd. unfold suffix_index.
  rewrite (rfind_append dot st f Hd), length_append.
  destruct st as [|a st]; [contradiction |].
  destruct f as [|b f]; [contradiction |].
  cbn [String.length].
  replace (0 <? S (String.length st))%nat with true by (symmetry; apply Nat.ltb_lt; lia).
  replace (S (String.length st) + 1 <? S (String.length st) + S (S (String.length f)))%nat
    with true by (symmetry; apply Nat.ltb_lt; lia).
  reflexivity.
Qed.


Lemma name_stem_new (st f : string) :
  st <> "" -> f <> "" -> contains dot f = false ->
  name_stem (String.append st (String dot f)) = st.
Proof.
  intros Hst Hf Hd. unfold name_stem.
  rewrite (suffix_index_new st f Hst Hf Hd). apply take_length_append.
Qed.

(** *** Plain formats *)

Lemma plain_format_inv (f : string) :
  plain_format f = true -> f <> "" /\ contains sep f = false /\ contains dot f = false.
Proof.
  unfold plain_format. intros H.
  apply andb_prop in H as [H Hd]. apply andb_prop in H as [He Hs].
  apply negb_true_iff in He, Hs, Hd. apply String.eqb_neq in He. auto.
Qed.

Lemma valid_suffix_plain (f : string) :
  plain_format f = true -> valid_suffix (String dot f) = true.
Proof.
  intros H. destruct (plain_format_inv f H) as (He & Hs & _).
  unfold valid_suffix. cbn [contains startswith]. rewrite sep_not_dot, Hs.
  destruct f as [|a f]; [contradiction | reflexivity].
Qed.

(** *** [with_suffix] *)

Lemma name_in_tail (p : PurePath) :
  name p <> "" -> tail p = List.removelast (tail p) ++ [name p].
Proof.
  unfold name. intros H. apply app_removelast_last.
  intros E. rewrite E in H. now apply H.
Qed.

Lemma with_suffix_plain (p : PurePath) (f : string) :
  name p <> "" -> plain_format f = true ->
  with_suffix p (String dot f)
  = Some (mkPath (root p)
                 (List.removelast (tail p) ++ [String.append (stem p) (String dot f)])).
Proof.
  intros Hn Hf. unfold with_suffix.
  rewrite (valid_suffix_plain f Hf). cbn [negb].
  apply String.eqb_neq in Hn. now rewrite Hn.
Qed.

Lemma forallb_removelast {A : Type} (P : A -> bool) (l : list A) :
  forallb P l = true -> forallb P (List.removelast l) = true.
Proof.
  induction l as [|x l IH]; [reflexivity |].
  intros H. cbn [forallb] in H. apply andb_prop in H as [Hx Hl].
  destruct l as [|y l]; [reflexivity |].
  change (List.removelast (x :: y :: l)) with (x :: List.removelast (y :: l)).
  cbn [forallb]. now rewrite Hx, (IH Hl).
Qed.

Lemma name_component (p : PurePath) :
  normal p = true -> name p <> "" -> component (name p) = true.
Proof.
  unfold normal. intros H Hn. apply andb_prop in H as [_ Ht].
  rewrite (name_in_tail p Hn), forallb_app in Ht.
  apply andb_prop in Ht as [_ Ht]. cbn [forallb] in Ht.
  now apply andb_prop in Ht as [Ht _].
Qed.

Lemma new_name_component (st f : string) :
  st <> "" -> contains sep st = false -> plain_format f = true ->
  component (String.append st (String dot f)) = true.
Proof.
  intros Hst Hs Hf. destruct (plain_format_inv f Hf) as (He & Hfs & _).
  unfold component, keep.
  rewrite contains_append. cbn [contains]. rewrite sep_not_dot, Hs, Hfs.
  destruct st as [|a st]; [contradiction |].
  rewrite append_cons.
  destruct st as [|b st].
  - destruct f as [|c f]; [contradiction |]. rewrite append_nil.
    cbn. destruct (Ascii.eqb a "."); reflexivity.
  - rewrite append_cons. cbn. destruct (Ascii.eqb a "."); reflexivity.
Qed.

Lemma with_suffix_normal (p : PurePath) (f : string) :
  normal p = true -> name p <> "" -> plain_format f = true ->
  normal (mkPath (root p)
                 (List.removelast (tail p) ++ [String.append (stem p) (String dot f)])) = true.
Proof.
  intros Hp Hn Hf. pose proof (name_component p Hp Hn) as Hc.
  unfold normal in *. cbn [root tail].
  apply andb_prop in Hp as [Hr Ht]. rewrite Hr. cbn [andb].
  rewrite forallb_app, (forallb_removelast _ _ Ht). cbn [forallb andb].
  rewrite new_name_component; [reflexivity | | | exact Hf].
  - now apply name_stem_nonempty.
  - now apply name_stem_no_sep, component_no_sep.
Qed.

(** *** The output file name of the pipeline *)

Lemma stem_parse_no_sep (s : string) : contains sep (stem (parse s)) = false.
Proof.
  unfold stem. apply name_stem_no_sep.
  destruct (String.eqb (name (parse s)) "") eqn:E.
  - apply String.eqb_eq in E. now rewrite E.
  - apply String.eqb_neq in E. apply component_no_sep, name_component; [| exact E].
    apply parse_normal.
Qed.

Lemma watertight_name_split (st f : string) :
  watertight_name st f = String.append (String.append st "_watertight") (String dot f).
Proof. unfold watertight_name. now rewrite append_assoc. Qed.

Lemma watertight_stem_nonempty (st : string) : String.append st "_watertight" <> "".
Proof. destruct st; discriminate. Qed.

Lemma watertight_name_component (st f : string) :
  contains sep st = false -> plain_format f = true ->
  component (watertight_name st f) = true.
Proof.
  intros Hs Hf. rewrite watertight_name_split.
  apply new_name_component; [apply watertight_stem_nonempty | | exact Hf].
  rewrite contains_append, Hs. reflexivity.
Qed.

(** The extension is already the format's: replacing it changes nothing. *)
Lemma watertight_name_stable (st f : string) :
  plain_format f = true ->
  String.append (name_stem (watertight_name st f)) (String dot f) = watertight_name st f.
Proof.
  intros Hf. destruct (plain_format_inv f Hf) as (He & _ & Hd).
  rewrite watertight_name_split.
  now rewrite (name_stem_new _ f (watertight_stem_nonempty st) He Hd).
Qed.

(** *** [os.path.join] *)

Lemma tail_parse_join (d n : string) :
  component n = true ->
  exists T, tail (parse (os_path_join d n)) = T ++ [n].
Proof.
  intros Hn. pose proof (component_no_sep n Hn) as Hs.
  pose proof (component_keep n Hn) as Hk.
  unfold os_path_join. rewrite (startswith_contains sep n Hs).
  assert (Hpiece : forall e, exists T,
             tail (parse (String.append e (String sep n))) = T ++ [n]).
  { intros e. rewrite tail_parse, split_app_sep, (split_no_sep sep n Hs), List.filter_app.
    cbn [List.filter]. rewrite Hk. eauto. }
  destruct (String.eqb d "") eqn:Ed.
  - apply String.eqb_eq in Ed. subst d. cbn [orb]. rewrite append_nil.
    exists []. rewrite tail_parse, (split_no_sep sep n Hs). cbn [List.filter].
    now rewrite Hk.
  - cbn [orb]. destruct (endswith sep d) eqn:Ee.
    + destruct (endswith_append sep d Ee) as [e ->].
      rewrite append_assoc. apply Hpiece.
    + apply Hpiece.
Qed.

Lemma name_parse_join (d n : string) :
  component n = true -> name (parse (os_path_join d n)) = n.
Proof.
  intros Hn. destruct (tail_parse_join d n Hn) as [T HT].
  unfold name. rewrite HT. apply last_last.
Qed.

(** On the pipeline's output path [with_suffix] is the identity. *)
Lemma with_suffix_join (d st f : string) :
  contains sep st = false -> plain_format f = true ->
  with_suffix (parse (os_path_join d (watertight_name st f))) (String dot f)
  = Some (parse (os_path_join d (watertight_name st f))).
Proof.
  intros Hs Hf.
  pose proof (watertight_name_component st f Hs Hf) as Hc.
  pose proof (name_parse_join d _ Hc) as Hname.
  destruct (tail_parse_join d _ Hc) as [T HT].
  rewrite with_suffix_plain; [| | exact Hf].
  - unfold stem. rewrite Hname, (watertight_name_stable st f Hf), HT.
    rewrite removelast_last. rewrite <- HT.
    now destruct (parse (os_path_join d (watertight_name st f))).
  - rewrite Hname. destruct st; discriminate.
Qed.

(** *** Joining onto a path in normal form *)

Lemma endswith_contains (c : ascii) (s : string) :
  contains c s = false -> endswith c s = false.
Proof.
  induction s as [|a s IH]; [reflexivity |].
  cbn [contains]. intros H. apply orb_false_iff in H as [Ha Hs].
  destruct s as [|b s]; [exact Ha | exact (IH Hs)].
Qed.

Lemma endswith_append_piece (c : ascii) (a x : string) :
  x <> "" -> contains c x = false -> endswith c (String.append a x) = false.
Proof.
  intros Hx Hc. induction a as [|y a IH].
  - rewrite append_nil. now apply endswith_contains.
  - rewrite append_cons. destruct (String.append a x) as [|b r] eqn:E.
    + destruct a; [rewrite append_nil in E; contradiction | discriminate E].
    + exact IH.
Qed.

Lemma join_last (sp : string) (t : list string) :
  t <> [] -> exists a, join sp t = String.append a (List.last t "").
Proof.
  induction t as [|x t IH]; [contradiction |]. intros _.
  destruct t as [|y t].
  - now exists "".
  - destruct IH as [a Ha]; [discriminate |].
    exists (String.append x (String.append sp a)).
    rewrite join_cons by discriminate. rewrite Ha.
    change (List.last (x :: y :: t) "") with (List.last (y :: t) "").
    now rewrite !append_assoc.
Qed.

Lemma join_snoc (sp : string) (t : list string) (n : string) :
  t <> [] -> join sp (t ++ [n]) = String.append (join sp t) (String.append sp n).
Proof.
  induction t as [|x t IH]; [contradiction |]. intros _.
  destruct t as [|y t]; [reflexivity |].
  change ((x :: y :: t) ++ [n]) with (x :: ((y :: t) ++ [n])).
  rewrite join_cons by (destruct t; discriminate).
  rewrite IH by discriminate.
  rewrite (join_cons sp x (y :: t)) by discriminate.
  now rewrite !append_assoc.
Qed.

Lemma last_component (t : list string) :
  t <> [] -> forallb component t = true -> component (List.last t "") = true.
Proof.
  intros Ht H. rewrite (app_removelast_last "" Ht), forallb_app in H.
  apply andb_prop in H as [_ H]. cbn [forallb] in H.
  now apply andb_prop in H as [H _].
Qed.

Lemma eqb_append_nonempty (a b : string) :
  b <> "" -> String.eqb (String.append a b) "" = false.
Proof.
  intros Hb. apply String.eqb_neq. intros E.
  destruct a; [rewrite append_nil in E; contradiction | discriminate E].
Qed.

(** Joining a component onto the string of a normal path other than
    ["."] spells the path with that component added. *)
Lemma os_path_join_str (p : PurePath) (n : string) :
  normal p = true -> component n = true -> str p <> "." ->
  os_path_join (str p) n = str (mkPath (root p) (tail p ++ [n])).
Proof.
  destruct p as [r t]. unfold normal. cbn [root tail]. intros Hp Hn Hdot.
  apply andb_prop in Hp as [Hr Ht].
  destruct (component_first n Hn) as (a & n' & -> & Ha).
  unfold os_path_join. cbn [startswith]. rewrite Ha.
  destruct t as [|x t].
  - apply orb_prop in Hr as [Hr | Hr]; [apply orb_prop in Hr as [Hr | Hr] |];
      apply String.eqb_eq in Hr; subst r.
    + now contradiction Hdot.
    + reflexivity.
    + reflexivity.
  - pose proof (last_component (x :: t) ltac:(discriminate) Ht) as Hl.
    destruct (join_last "/" (x :: t)) as [pre Hpre]; [discriminate |].
    assert (Hne : List.last (x :: t) "" <> "").
    { destruct (component_first _ Hl) as (b & l' & -> & _). discriminate. }
    assert (Hstr : str (mkPath r (x :: t)) = String.append r (join "/" (x :: t))).
    { unfold str. cbn [root tail]. rewrite Hpre, <- append_assoc.
      now rewrite eqb_append_nonempty. }
    rewrite Hstr.
    assert (Hend : endswith sep (String.append r (join "/" (x :: t))) = false).
    { rewrite Hpre, <- append_assoc.
      apply endswith_append_piece; [exact Hne | now apply component_no_sep]. }
    assert (Hnonempty : String.eqb (String.append r (join "/" (x :: t))) "" = false).
    { rewrite Hpre, <- append_assoc. now apply eqb_append_nonempty. }
    rewrite Hend, Hnonempty. cbn [orb].
    unfold str. cbn [root tail].
    rewrite join_snoc by discriminate.
    rewrite <- !append_assoc.
    rewrite eqb_append_nonempty by discriminate.
    now rewrite !append_assoc.
Qed.

Lemma normal_snoc (p : PurePath) (n : string) :
  normal p = true -> component n = true ->
  normal (mkPath (root p) (tail p ++ [n])) = true.
Proof.
  unfold normal. cbn [root tail]. intros Hp Hn.
  apply andb_prop in Hp as [-> Ht]. cbn [andb].
  rewrite forallb_app, Ht. cbn. now rewrite Hn.
Qed.

(** For an output directory written in normal form (and not ["."]),
    joining a component gives a string that is in normal form already. *)
Lemma normalize_join (d n : string) :
  normalize d = d -> d <> "." -> component n = true ->
  normalize (os_path_join d n) = os_path_join d n.
Proof.
  unfold normalize. intros Hd Hdot Hn.
  pose proof (parse_normal d) as Hp.
  rewrite <- Hd at 1 2.
  rewrite os_path_join_str; [| exact Hp | exact Hn | now rewrite Hd].
  now rewrite parse_str by now apply normal_snoc.
Qed.

End PosixPathFacts.

(** ** Running the converter *)

Section ConverterFacts.

Context {L : Libs}.

Ltac unfold_monad :=
  unfold runs, mbind, M_bind, bind, mret, M_ret, ret, print, lib, emit in *.

(** Decide an equation between two runs by computing both. *)
Ltac run_eq :=
  unfold_monad;
  repeat match goal with w : World |- _ => destruct w end;
  cbn; rewrite <- ?app_assoc; cbn; try reflexivity.

Lemma emit_nil (w : World) : emit w [] [] = w.
Proof. destruct w. unfold emit. cbn. now rewrite !app_nil_r. Qed.

Lemma emit_emit (w : World) (m1 m2 : list Msg) (c1 c2 : list Call) :
  emit (emit w m1 c1) m2 c2 = emit w (m1 ++ m2) (c1 ++ c2).
Proof. unfold emit. cbn. now rewrite !app_assoc. Qed.

Lemma runs_ret {A : Type} (a : A) (w : World) : runs (mret a) w [] [] a.
Proof. unfold runs. now rewrite emit_nil. Qed.

Lemma runs_print (m : Msg) (w : World) : runs (print m) w [m] [] tt.
Proof. unfold runs, print, emit. now rewrite app_nil_r. Qed.

Lemma runs_lib {A : Type} (c : Call) (a : A) (w : World) : runs (lib c a) w [] [c] a.
Proof. unfold runs, lib, emit. now rewrite app_nil_r. Qed.

Lemma runs_bind {A B : Type} (m : M A) (k : A -> M B) (w : World)
    (m1 m2 : list Msg) (c1 c2 : list Call) (a : A) (b : B) :
  runs m w m1 c1 a -> runs (k a) (emit w m1 c1) m2 c2 b ->
  runs (m ≫= k) w (m1 ++ m2) (c1 ++ c2) b.
Proof.
  unfold runs. intros Hm Hk. unfold mbind, M_bind, bind.
  now rewrite Hm, Hk, emit_emit.
Qed.

Lemma load_point_cloud_runs (ply_path : string) (w : World) :
  runs (load_point_cloud ply_path) w
       [MsgLoaded (length (pcd_points (stored_cloud w ply_path)))]
       [call_read_point_cloud ply_path]
       (stored_cloud w ply_path).
Proof. unfold load_point_cloud, read_point_cloud, stored_cloud. run_eq. Qed.

Lemma poisson_reconstruction_runs (pcd : PointCloud) (depth width : Z) (scale : float)
    (linear_fit : bool) (w : World) :
  let r := create_from_point_cloud_poisson pcd depth width scale linear_fit in
  runs (poisson_reconstruction pcd depth width scale linear_fit) w
       [MsgRunningPoisson depth;
        MsgReconstructed (length (vertices (fst r))) (length (triangles (fst r)))]
       [call_create_from_point_cloud_poisson depth width scale linear_fit]
       r.
Proof.
  intros r. unfold poisson_reconstruction. fold r. destruct r as [mesh densities].
  run_eq.
Qed.

Lemma bind_inr {A B : Type} (m : M A) (k : A -> M B) (w w' : World) (a : A) :
  m w = (w', inr a) -> (m ≫= k) w = k a w'.
Proof. intros H. unfold mbind, M_bind, bind. now rewrite H. Qed.

Lemma bind_inl {A B : Type} (m : M A) (k : A -> M B) (w w' : World) (e : Exn) :
  m w = (w', inl e) -> (m ≫= k) w = (w', inl e).
Proof. intros H. unfold mbind, M_bind, bind. now rewrite H. Qed.

Lemma estimate_normals_runs (pcd : PointCloud) (w : World) :
  let radius := fmul (np_mean (compute_nearest_neighbor_distance pcd)) (float_of_Z 2) in
  runs (estimate_normals pcd) w
       [MsgEstimatingNormals]
       [call_compute_nearest_neighbor_distance;
        call_estimate_normals radius 30;
        call_orient_normals_consistent_tangent_plane 15]
       (orient_normals_consistent_tangent_plane 15 (o3d_estimate_normals radius 30 pcd)).
Proof. intros radius. unfold estimate_normals. fold radius. run_eq. Qed.

(** The four topology passes, in the order [clean_mesh] applies them. *)
Lemma clean_mesh_runs_none (mesh : TriangleMesh) (thr : float) (w : World) :
  let m := remove_non_manifold_edges
             (remove_duplicated_vertices
                (remove_duplicated_triangles (remove_degenerate_triangles mesh))) in
  runs (clean_mesh mesh None thr) w
       [MsgCleaning; MsgCleaned (length (vertices m)) (length (triangles m))]
       [call_remove_degenerate_triangles; call_remove_duplicated_triangles;
        call_remove_duplicated_vertices; call_remove_non_manifold_edges]
       m.
Proof. intros m. unfold clean_mesh. fold m. run_eq. Qed.

Lemma clean_mesh_runs_some (mesh : TriangleMesh) (densities : list float) (thr : float)
    (w : World) :
  let mask := map (fun d => flt d (np_quantile densities thr)) densities in
  let m := remove_non_manifold_edges
             (remove_duplicated_vertices
                (remove_duplicated_triangles
                   (remove_degenerate_triangles (remove_vertices_by_mask mask mesh)))) in
  runs (clean_mesh mesh (Some densities) thr) w
       [MsgCleaning; MsgCleaned (length (vertices m)) (length (triangles m))]
       [call_remove_vertices_by_mask mask;
        call_remove_degenerate_triangles; call_remove_duplicated_triangles;
        call_remove_duplicated_vertices; call_remove_non_manifold_edges]
       m.
Proof. intros mask m. unfold clean_mesh. fold mask. fold m. run_eq. Qed.

(** The three ways through [make_watertight]. *)
Lemma make_watertight_done (mesh : TriangleMesh) (resolution : Z) (w : World) :
  let t0 := trimesh_Trimesh (vertices mesh) (triangles mesh) in
  is_watertight t0 = true ->
  runs (make_watertight mesh resolution) w
       [MsgMakingWatertight; MsgNowWatertight] [] t0.
Proof.
  intros t0 H0. unfold make_watertight. fold t0. rewrite H0. cbn [negb].
  unfold_monad. rewrite H0. destruct w. cbn. rewrite H0. cbn.
  now rewrite <- !app_assoc, !app_nil_r.
Qed.

Lemma make_watertight_hole_filled (mesh : TriangleMesh) (resolution : Z) (w : World) :
  let t0 := trimesh_Trimesh (vertices mesh) (triangles mesh) in
  let t1 := fill_holes t0 in
  is_watertight t0 = false -> is_watertight t1 = true ->
  runs (make_watertight mesh resolution) w
       [MsgMakingWatertight; MsgNotWatertightAttemptingFix; MsgNowWatertight]
       [call_fill_holes] t1.
Proof.
  intros t0 t1 H0 H1. unfold make_watertight. fold t0. rewrite H0. cbn [negb].
  unfold_monad. destruct w. cbn. fold t1. rewrite H1. cbn. rewrite H1. cbn.
  now rewrite <- !app_assoc.
Qed.

Lemma make_watertight_voxelized (mesh : TriangleMesh) (resolution : Z) (w : World) :
  let t0 := trimesh_Trimesh (vertices mesh) (triangles mesh) in
  let t1 := fill_holes t0 in
  let pitch := fdiv (np_max (bounding_box_extents t1)) (float_of_Z resolution) in
  let t2 := filter_laplacian (to_mesh (as_boxes (voxelized t1 pitch))) in
  is_watertight t0 = false -> is_watertight t1 = false ->
  runs (make_watertight mesh resolution) w
       [MsgMakingWatertight; MsgNotWatertightAttemptingFix; MsgUsingVoxelization;
        if is_watertight t2 then MsgNowWatertight else MsgWarningMayNotBeWatertight]
       [call_fill_holes; call_voxelized pitch; call_as_boxes; call_to_mesh;
        call_filter_laplacian]
       t2.
Proof.
  intros t0 t1 pitch t2 H0 H1. unfold make_watertight. fold t0. rewrite H0. cbn [negb].
  unfold_monad. destruct w. cbn. fold t1. rewrite H1. cbn. fold pitch. fold t2.
  destruct (is_watertight t2); cbn; now rewrite <- !app_assoc.
Qed.

Lemma make_watertight_runs (mesh : TriangleMesh) (resolution : Z) (w : World) :
  exists msgs cs t,
    runs (make_watertight mesh resolution) w
         (msgs ++ [status_line (is_watertight t)]) cs t
    /\ ~ In MsgNowWatertight msgs /\ ~ In MsgWarningMayNotBeWatertight msgs.
Proof.
  set (t0 := trimesh_Trimesh (vertices mesh) (triangles mesh)).
  destruct (is_watertight t0) eqn:H0.
  - exists [MsgMakingWatertight], [], t0. rewrite H0.
    split; [now apply make_watertight_done |].
    split; intros [E | []]; discriminate E.
  - destruct (is_watertight (fill_holes t0)) eqn:H1.
    + exists [MsgMakingWatertight; MsgNotWatertightAttemptingFix], [call_fill_holes],
        (fill_holes t0).
      rewrite H1. split; [now apply make_watertight_hole_filled |].
      split; intros [E | [E | []]]; discriminate E.
    + eexists [MsgMakingWatertight; MsgNotWatertightAttemptingFix; MsgUsingVoxelization],
        _, _.
      split; [now apply make_watertight_voxelized |].
      split; intros [E | [E | [E | []]]]; discriminate E.
Qed.

Lemma normals_step_runs (pcd : PointCloud) (w : World) :
  exists msgs cs pcd',
    runs (if negb (has_normals pcd) then estimate_normals pcd else mret pcd) w msgs cs pcd'.
Proof.
  destruct (negb (has_normals pcd)).
  - do 3 eexists. apply estimate_normals_runs.
  - do 3 eexists. apply runs_ret.
Qed.

Lemma clean_step_runs (mesh : TriangleMesh) (densities : list float) (clean : bool)
    (thr : float) (w : World) :
  exists msgs cs mesh',
    runs (if clean then clean_mesh mesh (Some densities) thr else mret mesh) w msgs cs mesh'.
Proof.
  destruct clean.
  - do 3 eexists. apply clean_mesh_runs_some.
  - do 3 eexists. apply runs_ret.
Qed.

(** [save_mesh] when the suffix can be set. *)
Lemma save_mesh_some (mesh : Trimesh) (output_path file_format : string)
    (p : PosixPath.PurePath) (w : World) :
  PosixPath.with_suffix (PosixPath.parse output_path) (String.append "." file_format)
  = Some p ->
  save_mesh mesh output_path file_format w
  = if exporter_available (PosixPath.str p)
    then (exported w [MsgSaved (PosixPath.str p)] [] (PosixPath.str p) mesh,
          inr (PosixPath.str p))
    else (w, inl ExportError).
Proof.
  intros Hp. unfold save_mesh. rewrite Hp. unfold export, exported.
  unfold_monad. destruct (exporter_available (PosixPath.str p)); reflexivity.
Qed.

Lemma save_mesh_none (mesh : Trimesh) (output_path file_format : string) (w : World) :
  PosixPath.with_suffix (PosixPath.parse output_path) (String.append "." file_format)
  = None ->
  save_mesh mesh output_path file_format w = (w, inl ValueError).
Proof. intros Hp. unfold save_mesh. now rewrite Hp. Qed.

(** Steps 1 to 5 of the pipeline always run once the output directory is
    there, whatever the input: the file is read and Poisson reconstruction
    is called with the depth as given. *)
Lemma convert_reaches_save (ply_path output_dir : string) (depth : Z) (clean : bool)
    (output_format : string) (w w1 : World) :
  os_makedirs_exist_ok output_dir w = (w1, inr tt) ->
  exists msgs cs1 cs2 tri_mesh,
    let output_path :=
      PosixPath.os_path_join output_dir
        (watertight_name (PosixPath.stem (PosixPath.parse ply_path)) output_format) in
    let w2 := emit w1 (msgs ++ [status_line (is_watertight tri_mesh)])
                   (call_read_point_cloud ply_path :: cs1
                    ++ call_create_from_point_cloud_poisson
                         depth default_width default_scale default_linear_fit :: cs2) in
    convert_to_watertight_mesh ply_path output_dir depth clean output_format w
    = (output_path ← save_mesh tri_mesh output_path output_format;
       print MsgFinalStatistics;;
       print (MsgStatVertices (length (tm_vertices tri_mesh)));;
       print (MsgStatFaces (length (tm_faces tri_mesh)));;
       print (MsgStatWatertight (is_watertight tri_mesh));;
       print (MsgStatVolume (tm_volume tri_mesh));;
       print (MsgStatArea (tm_area tri_mesh));;
       mret output_path) w2.
Proof.
  intros Hmk.
  pose proof (load_point_cloud_runs ply_path w1) as Hload.
  set (pcd0 := stored_cloud w1 ply_path) in *.
  set (w11 := emit w1 [MsgLoaded (length (pcd_points pcd0))]
                   [call_read_point_cloud ply_path]) in *.
  destruct (normals_step_runs pcd0 w11) as (m2 & c2 & pcd & Hnorm).
  set (w12 := emit w11 m2 c2) in *.
  pose proof (poisson_reconstruction_runs pcd depth default_width default_scale
                default_linear_fit w12) as Hpois.
  cbv zeta in Hpois.
  destruct (create_from_point_cloud_poisson pcd depth default_width default_scale
              default_linear_fit) as [mesh densities] eqn:Er.
  cbn [fst] in Hpois.
  set (mp := [MsgRunningPoisson depth;
              MsgReconstructed (length (vertices mesh)) (length (triangles mesh))]) in *.
  set (cp := [call_create_from_point_cloud_poisson depth default_width default_scale
                default_linear_fit]) in *.
  set (w13 := emit w12 mp cp) in *.
  destruct (clean_step_runs mesh densities clean default_density_threshold w13)
    as (m4 & c4 & mesh' & Hclean).
  set (w14 := emit w13 m4 c4) in *.
  destruct (make_watertight_runs mesh' default_resolution w14)
    as (m5 & c5 & t & Hwt & _ & _).
  exists ([MsgLoaded (length (pcd_points pcd0))] ++ m2 ++ mp ++ m4 ++ m5), c2, (c4 ++ c5), t.
  cbv zeta.
  unfold convert_to_watertight_mesh.
  rewrite (bind_inr _ _ _ _ _ Hmk).
  unfold runs in *.
  rewrite (bind_inr _ _ _ _ _ Hload).
  rewrite (bind_inr _ _ _ _ _ Hnorm).
  rewrite (bind_inr _ _ _ _ _ Hpois).
  rewrite (bind_inr _ _ _ _ _ Hclean).
  rewrite (bind_inr _ _ _ _ _ Hwt).
  f_equal.
  unfold w14, w13, w12, w11, mp, cp. rewrite !emit_emit. f_equal.
  all: repeat (rewrite <- ?app_assoc; cbn); reflexivity.
Qed.

End ConverterFacts.

(** ** The executable library adds no vertices and no triangles *)

Module RefLibsFacts.
Import RefLibs.

Lemma keep_unmasked_length {A : Type} (mask : list bool) (l : list A) :
  (length (keep_unmasked mask l) <= length l)%nat.
Proof.
  revert mask; induction l as [|x l IH]; intros mask; [cbn; lia |].
  destruct mask as [|[|] mask]; cbn; [lia | |]; specialize (IH mask); lia.
Qed.

Lemma remap_faces_length (table : list (option Z)) (fs : list triangle) :
  (length (remap_faces table fs) <= length fs)%nat.
Proof.
  induction fs as [|f fs IH]; cbn; [lia |].
  destruct (remap_face table f); cbn; lia.
Qed.

Lemma dedup_length {A : Type} (eqb : A -> A -> bool) (seen l : list A) :
  (length (dedup eqb seen l) <= length l)%nat.
Proof.
  revert seen; induction l as [|x l IH]; intros seen; cbn; [lia |].
  destruct (existsb (eqb x) seen); cbn.
  - specialize (IH seen). lia.
  - specialize (IH (x :: seen)). lia.
Qed.

Lemma remove_by_mask_no_growth (mask : list bool) :
  no_growth (L := libs) (remove_vertices_by_mask mask).
Proof.
  intros m. cbn. split; [apply keep_unmasked_length | apply remap_faces_length].
Qed.

Lemma remove_degenerate_no_growth : no_growth (L := libs) remove_degenerate_triangles.
Proof. intros m. cbn. split; [apply Nat.le_refl | apply List.filter_length_le]. Qed.

Lemma remove_dup_triangles_no_growth : no_growth (L := libs) remove_duplicated_triangles.
Proof. intros m. cbn. split; [apply Nat.le_refl | apply dedup_length]. Qed.

Lemma remove_dup_vertices_no_growth : no_growth (L := libs) remove_duplicated_vertices.
Proof.
  intros m. cbn. split; [apply dedup_length |].
  rewrite List.length_map. apply Nat.le_refl.
Qed.

Lemma remove_non_manifold_no_growth : no_growth (L := libs) remove_non_manifold_edges.
Proof. intros m. cbn. split; [apply Nat.le_refl | apply List.filter_length_le]. Qed.

End RefLibsFacts.

(** * The claims *)

(** ** Normal Estimator *)

(** C7: for every point cloud the Normal Estimator takes the mean
    nearest-neighbour distance [d] as the sample spacing, estimates the
    normals with a hybrid search of radius [2 d] and at most 30
    neighbours, and then orients them along the tangent-plane graph with
    [k = 15]; it makes exactly these three calls, in this order. *)
Theorem estimate_normals_spacing_radius_orientation
    {L : Libs} (pcd : PointCloud) (w : World) :
  let d := np_mean (compute_nearest_neighbor_distance pcd) in
  let radius := fmul d (float_of_Z 2) in
  runs (estimate_normals pcd) w
       [MsgEstimatingNormals]
       [call_compute_nearest_neighbor_distance;
        call_estimate_normals radius 30;
        call_orient_normals_consistent_tangent_plane 15]
       (orient_normals_consistent_tangent_plane 15 (o3d_estimate_normals radius 30 pcd)).
Proof. apply estimate_normals_runs. Qed.

(** ** Mesh Cleaner *)

(** C5: with a density array, the cleaner first removes by mask exactly
    the vertices whose density is strictly below the quantile of the
    array, and then, with or without densities, runs the degenerate
    triangle, duplicate triangle, duplicate vertex and non-manifold edge
    passes, in that order. *)
Theorem clean_mesh_density_then_topology
    {L : Libs} (mesh : TriangleMesh) (densities : option (list float)) (thr : float)
    (w : World) :
  let topology m :=
    remove_non_manifold_edges
      (remove_duplicated_vertices
         (remove_duplicated_triangles (remove_degenerate_triangles m))) in
  let topology_calls :=
    [call_remove_degenerate_triangles; call_remove_duplicated_triangles;
     call_remove_duplicated_vertices; call_remove_non_manifold_edges] in
  match densities with
  | Some ds =>
      let q := np_quantile ds thr in
      exists mask : list bool,
        (forall i : nat,
            mask !! i = Some true <-> exists d, ds !! i = Some d /\ flt d q = true)
        /\ length mask = length ds
        /\ let m := topology (remove_vertices_by_mask mask mesh) in
           runs (clean_mesh mesh (Some ds) thr) w
                [MsgCleaning; MsgCleaned (length (vertices m)) (length (triangles m))]
                (call_remove_vertices_by_mask mask :: topology_calls)
                m
  | None =>
      let m := topology mesh in
      runs (clean_mesh mesh None thr) w
           [MsgCleaning; MsgCleaned (length (vertices m)) (length (triangles m))]
           topology_calls
           m
  end.
Proof.
  intros topology topology_calls. destruct densities as [ds|].
  - intros q. exists (map (fun d => flt d q) ds).
    split; [| split].
    + intros i. rewrite list_lookup_fmap. destruct (ds !! i) as [d|]; cbn.
      * split; [intros [= H]; eauto | intros (d' & [= <-] & H); now rewrite H].
      * split; [discriminate | intros (d' & [=] & _)].
    + apply List.length_map.
    + apply clean_mesh_runs_some.
  - apply clean_mesh_runs_none.
Qed.

Section CleanerCounts.

Context {L : Libs}.

(** Open3D's removal operations remove: none of them adds a vertex or a
    triangle. *)
Hypothesis remove_vertices_by_mask_removes :
  forall mask, no_growth (remove_vertices_by_mask mask).
Hypothesis remove_degenerate_triangles_removes : no_growth remove_degenerate_triangles.
Hypothesis remove_duplicated_triangles_removes : no_growth remove_duplicated_triangles.
Hypothesis remove_duplicated_vertices_removes : no_growth remove_duplicated_vertices.
Hypothesis remove_non_manifold_edges_removes : no_growth remove_non_manifold_edges.

Lemma no_growth_compose (f g : TriangleMesh -> TriangleMesh) :
  no_growth f -> no_growth g -> no_growth (fun m => g (f m)).
Proof.
  intros Hf Hg m. destruct (Hf m) as [Hv Ht]. destruct (Hg (f m)) as [Hv' Ht']. lia.
Qed.

(** C6: with or without a density array, the cleaner returns a mesh with
    at most as many vertices and at most as many triangles as it was
    given. *)
Theorem clean_mesh_never_increases_counts
    (mesh : TriangleMesh) (densities : option (list float)) (thr : float) (w : World) :
  exists msgs cs cleaned,
    runs (clean_mesh mesh densities thr) w msgs cs cleaned
    /\ (length (vertices cleaned) <= length (vertices mesh))%nat
    /\ (length (triangles cleaned) <= length (triangles mesh))%nat.
Proof.
  assert (Htopo : no_growth (fun m =>
            remove_non_manifold_edges
              (remove_duplicated_vertices
                 (remove_duplicated_triangles (remove_degenerate_triangles m))))).
  { apply (no_growth_compose (fun m => remove_duplicated_vertices
              (remove_duplicated_triangles (remove_degenerate_triangles m))));
      [| assumption].
    apply (no_growth_compose (fun m => remove_duplicated_triangles
              (remove_degenerate_triangles m))); [| assumption].
    now apply (no_growth_compose remove_degenerate_triangles). }
  destruct densities as [ds|].
  - do 3 eexists. split; [apply clean_mesh_runs_some |].
    apply (no_growth_compose (remove_vertices_by_mask _) _
             (remove_vertices_by_mask_removes _) Htopo).
  - do 3 eexists. split; [apply clean_mesh_runs_none |]. apply Htopo.
Qed.

End CleanerCounts.

Lemma clean_mesh_never_increases_counts_witness :
  ((forall mask, no_growth (L := RefLibs.libs) (remove_vertices_by_mask mask))
   /\ no_growth (L := RefLibs.libs) remove_degenerate_triangles
   /\ no_growth (L := RefLibs.libs) remove_duplicated_triangles
   /\ no_growth (L := RefLibs.libs) remove_duplicated_vertices
   /\ no_growth (L := RefLibs.libs) remove_non_manifold_edges)
  /\ exists msgs cs cleaned,
       runs (clean_mesh (L := RefLibs.libs) RefLibs.messy
                        (Some [1; 2; 3; 4; 5]%Q) (1 # 4)%Q)
            RefLibs.empty_world msgs cs cleaned
       /\ (length (vertices cleaned) <= 5)%nat
       /\ (length (triangles cleaned) <= 7)%nat.
Proof.
  split.
  - split; [| split; [| split; [| split]]].
    + apply RefLibsFacts.remove_by_mask_no_growth.
    + apply RefLibsFacts.remove_degenerate_no_growth.
    + apply RefLibsFacts.remove_dup_triangles_no_growth.
    + apply RefLibsFacts.remove_dup_vertices_no_growth.
    + apply RefLibsFacts.remove_non_manifold_no_growth.
  - exact (clean_mesh_never_increases_counts (L := RefLibs.libs)
             RefLibsFacts.remove_by_mask_no_growth
             RefLibsFacts.remove_degenerate_no_growth
             RefLibsFacts.remove_dup_triangles_no_growth
             RefLibsFacts.remove_dup_vertices_no_growth
             RefLibsFacts.remove_non_manifold_no_growth
             RefLibs.messy (Some [1; 2; 3; 4; 5]%Q) (1 # 4)%Q RefLibs.empty_world).
Defined.

(** ** Watertight Repair *)

(** C3: on a mesh that is not watertight, repair first fills holes; only
    if the mesh is still not watertight does it voxelize with pitch
    (longest bounding-box extent) / resolution, rebuild a mesh from the
    boxes of the voxels and smooth that mesh with the Laplacian filter. *)
Theorem make_watertight_repair_ladder
    {L : Libs} (mesh : TriangleMesh) (resolution : Z) (w : World) :
  let t0 := trimesh_Trimesh (vertices mesh) (triangles mesh) in
  let t1 := fill_holes t0 in
  let pitch := fdiv (np_max (bounding_box_extents t1)) (float_of_Z resolution) in
  let t2 := filter_laplacian (to_mesh (as_boxes (voxelized t1 pitch))) in
  is_watertight t0 = false ->
  if is_watertight t1
  then runs (make_watertight mesh resolution) w
            [MsgMakingWatertight; MsgNotWatertightAttemptingFix; MsgNowWatertight]
            [call_fill_holes]
            t1
  else runs (make_watertight mesh resolution) w
            [MsgMakingWatertight; MsgNotWatertightAttemptingFix; MsgUsingVoxelization;
             status_line (is_watertight t2)]
            [call_fill_holes; call_voxelized pitch; call_as_boxes; call_to_mesh;
             call_filter_laplacian]
            t2.
Proof.
  intros t0 t1 pitch t2 H0. destruct (is_watertight t1) eqn:H1.
  - now apply make_watertight_hole_filled.
  - now apply make_watertight_voxelized.
Qed.

Lemma make_watertight_repair_ladder_witness :
  @is_watertight RefLibs.libs
    (trimesh_Trimesh (vertices RefLibs.open_square) (triangles RefLibs.open_square)) = false
  /\ runs (make_watertight (L := RefLibs.libs) RefLibs.open_square 2) RefLibs.empty_world
          [MsgMakingWatertight; MsgNotWatertightAttemptingFix; MsgUsingVoxelization;
           MsgNowWatertight]
          [call_fill_holes; call_voxelized (L := RefLibs.libs) (1 # 2)%Q; call_as_boxes;
           call_to_mesh; call_filter_laplacian]
          (RefLibs.smooth
             (RefLibs.remove_dup_vertices
                (RefLibs.boxes_mesh
                   (RefLibs.grid_boxes (RefLibs.voxelize RefLibs.open_square (1 # 2)%Q)) 0))).
Proof.
  split; [reflexivity |].
  exact (make_watertight_repair_ladder (L := RefLibs.libs) RefLibs.open_square 2
           RefLibs.empty_world eq_refl).
Defined.

(** C4: a mesh that is watertight on entry is returned as it is, without
    hole filling, voxelization or smoothing; and repairing the returned
    mesh again returns the same mesh (the returned trimesh is handed
    back as an Open3D mesh, as [visualize_mesh] converts it). *)
Theorem make_watertight_idempotent_on_watertight
    {L : Libs} (mesh : TriangleMesh) (resolution : Z) (w : World) :
  let t0 := trimesh_Trimesh (vertices mesh) (triangles mesh) in
  is_watertight t0 = true ->
  runs (make_watertight mesh resolution) w
       [MsgMakingWatertight; MsgNowWatertight] [] t0
  /\ (trimesh_Trimesh (vertices (open3d_of_trimesh t0)) (triangles (open3d_of_trimesh t0))
      = t0 ->
      runs (repair_twice mesh resolution) w
           [MsgMakingWatertight; MsgNowWatertight; MsgMakingWatertight; MsgNowWatertight]
           [] t0).
Proof.
  intros t0 H0. split; [now apply make_watertight_done |].
  intros Hback. unfold repair_twice.
  apply (runs_bind _ _ w [MsgMakingWatertight; MsgNowWatertight]
           [MsgMakingWatertight; MsgNowWatertight] [] [] t0 t0).
  - now apply make_watertight_done.
  - pose proof (make_watertight_done (open3d_of_trimesh t0) resolution
                  (emit w [MsgMakingWatertight; MsgNowWatertight] [])) as H.
    cbv zeta in H. rewrite Hback in H. now apply H.
Qed.

Lemma make_watertight_idempotent_on_watertight_witness :
  @is_watertight RefLibs.libs
    (trimesh_Trimesh (vertices RefLibs.tetra) (triangles RefLibs.tetra)) = true
  /\ @trimesh_Trimesh RefLibs.libs
       (vertices (open3d_of_trimesh (L := RefLibs.libs) RefLibs.tetra))
       (triangles (open3d_of_trimesh (L := RefLibs.libs) RefLibs.tetra)) = RefLibs.tetra
  /\ runs (make_watertight (L := RefLibs.libs) RefLibs.tetra 20000) RefLibs.empty_world
          [MsgMakingWatertight; MsgNowWatertight] [] RefLibs.tetra
  /\ runs (repair_twice (L := RefLibs.libs) RefLibs.tetra 20000) RefLibs.empty_world
          [MsgMakingWatertight; MsgNowWatertight; MsgMakingWatertight; MsgNowWatertight]
          [] RefLibs.tetra.
Proof.
  pose proof (make_watertight_idempotent_on_watertight (L := RefLibs.libs)
                RefLibs.tetra 20000 RefLibs.empty_world eq_refl) as [H1 H2].
  exact (conj eq_refl (conj eq_refl (conj H1 (H2 eq_refl)))).
Defined.

(** ** The whole pipeline *)

Section PipelineFacts.

Context {L : Libs}.

Import PosixPath.

Lemma with_dir_existing (output_dir : string) (w : World) :
  output_dir ∈ fs_dirs w -> with_dir output_dir w = w.
Proof.
  intros Hin. destruct w as [ds fs out cs]. unfold with_dir. cbn in *.
  f_equal. apply leibniz_equiv. apply subseteq_union_1. now apply singleton_subseteq_l.
Qed.

Lemma os_makedirs_ok (output_dir : string) (w : World) :
  output_dir <> "" ->
  output_dir ∈ fs_dirs w \/ fs_files w !! output_dir = None ->
  os_makedirs_exist_ok output_dir w = (with_dir output_dir w, inr tt).
Proof.
  intros Hne H. unfold os_makedirs_exist_ok.
  apply String.eqb_neq in Hne. rewrite Hne.
  destruct (decide (output_dir ∈ fs_dirs w)) as [Hin | Hnin].
  - now rewrite with_dir_existing.
  - destruct H as [H | H]; [contradiction |].
    destruct (decide (is_Some (fs_files w !! output_dir))) as [[f Hf] | _].
    + rewrite H in Hf. discriminate Hf.
    + reflexivity.
Qed.

(** Everything the pipeline can do once the output directory is there. *)
Lemma convert_outcome (ply_path output_dir : string) (depth : Z) (clean : bool)
    (output_format : string) (w w1 : World) :
  os_makedirs_exist_ok output_dir w = (w1, inr tt) ->
  exists msgs cs1 cs2 tri_mesh,
    let output_path :=
      os_path_join output_dir
        (watertight_name (stem (parse ply_path)) output_format) in
    let msgs := msgs ++ [status_line (is_watertight tri_mesh)] in
    let cs := call_read_point_cloud ply_path :: cs1
              ++ call_create_from_point_cloud_poisson
                   depth default_width default_scale default_linear_fit :: cs2 in
    convert_to_watertight_mesh ply_path output_dir depth clean output_format w
    = match with_suffix (parse output_path) (String.append "." output_format) with
      | None => (emit w1 msgs cs, inl ValueError)
      | Some p =>
          if exporter_available (str p)
          then (exported w1 (msgs ++ MsgSaved (str p) :: statistics tri_mesh) cs
                         (str p) tri_mesh,
                inr (str p))
          else (emit w1 msgs cs, inl ExportError)
      end.
Proof.
  intros Hmk.
  destruct (convert_reaches_save ply_path output_dir depth clean output_format w w1 Hmk)
    as (msgs & cs1 & cs2 & t & H).
  exists msgs, cs1, cs2, t. cbv zeta in *. rewrite H. clear H.
  destruct (with_suffix _ _) as [p|] eqn:Ep.
  - pose proof (save_mesh_some t _ _ p
                  (emit w1 (msgs ++ [status_line (is_watertight t)])
                     (call_read_point_cloud ply_path :: cs1
                      ++ call_create_from_point_cloud_poisson depth default_width
                           default_scale default_linear_fit :: cs2)) Ep) as Hs.
    destruct (exporter_available (str p)).
    + rewrite (bind_inr _ _ _ _ _ Hs). unfold exported, statistics.
      unfold mbind, M_bind, bind, mret, M_ret, ret, print, emit. cbn.
      repeat (rewrite <- ?app_assoc; cbn). reflexivity.
    + now rewrite (bind_inl _ _ _ _ _ Hs).
  - now rewrite (bind_inl _ _ _ _ _ (save_mesh_none t _ _ _ Ep)).
Qed.

(** With a plain format the pipeline's own output path needs no new
    suffix, so the pipeline succeeds whenever the exporter is there. *)
Lemma convert_succeeds (ply_path output_dir : string) (depth : Z) (clean : bool)
    (output_format : string) (w w1 : World) :
  let p := normalize (os_path_join output_dir
                        (watertight_name (stem (parse ply_path)) output_format)) in
  os_makedirs_exist_ok output_dir w = (w1, inr tt) ->
  plain_format output_format = true ->
  exporter_available p = true ->
  exists msgs cs1 cs2 tri_mesh,
    convert_to_watertight_mesh ply_path output_dir depth clean output_format w
    = (exported w1
         (msgs ++ [status_line (is_watertight tri_mesh)]
          ++ MsgSaved p :: statistics tri_mesh)
         (call_read_point_cloud ply_path :: cs1
          ++ call_create_from_point_cloud_poisson
               depth default_width default_scale default_linear_fit :: cs2)
         p tri_mesh,
       inr p).
Proof.
  intros p Hmk Hf Hex.
  destruct (convert_outcome ply_path output_dir depth clean output_format w w1 Hmk)
    as (msgs & cs1 & cs2 & t & H).
  exists msgs, cs1, cs2, t. cbv zeta in H. rewrite H. clear H.
  change (String.append "." output_format) with (String dot output_format).
  rewrite (PosixPathFacts.with_suffix_join output_dir _ output_format
             (PosixPathFacts.stem_parse_no_sep ply_path) Hf).
  fold (normalize (os_path_join output_dir
                     (watertight_name (stem (parse ply_path)) output_format))).
  fold p. rewrite Hex. now rewrite <- app_assoc.
Qed.

End PipelineFacts.

(** ** Mesh Exporter *)



(** ** The pipeline *)

(** C10, as the code has it: the pipeline first makes sure the output
    directory is there (creating it when it is missing, going on when it
    is a directory already); for a format that is a plain extension with
    an exporter it returns the output directory joined with
    ["<stem of P>_watertight.<F>"] in [pathlib]'s normal form, which is
    the join itself whenever the output directory is written in normal
    form (and is not ["."]). *)
Theorem convert_returns_normalized_join
    {L : Libs} (ply_path output_dir : string) (depth : Z) (clean : bool)
    (output_format : string) (w : World) :
  let joined :=
    PosixPath.os_path_join output_dir
      (watertight_name (PosixPath.stem (PosixPath.parse ply_path)) output_format) in
  output_dir <> "" ->
  output_dir ∈ fs_dirs w \/ fs_files w !! output_dir = None ->
  PosixPath.plain_format output_format = true ->
  exporter_available (PosixPath.normalize joined) = true ->
  exists w',
    convert_to_watertight_mesh ply_path output_dir depth clean output_format w
    = (w', inr (PosixPath.normalize joined))
    /\ fs_dirs w' = {[ output_dir ]} ∪ fs_dirs w
    /\ (output_dir ∈ fs_dirs w -> fs_dirs w' = fs_dirs w)
    /\ (PosixPath.normalize output_dir = output_dir -> output_dir <> "." ->
        PosixPath.normalize joined = joined).
Proof.
  intros joined Hne Hdir Hfmt Hexp.
  pose proof (os_makedirs_ok output_dir w Hne Hdir) as Hmk.
  destruct (convert_succeeds ply_path output_dir depth clean output_format w _
              Hmk Hfmt Hexp) as (msgs & cs1 & cs2 & t & Hrun).
  eexists. split; [exact Hrun |]. cbn [exported with_dir fs_dirs].
  split; [reflexivity |]. split.
  - intros Hin. apply leibniz_equiv, subseteq_union_1. now apply singleton_subseteq_l.
  - intros Hnorm Hdot. apply PosixPathFacts.normalize_join; [assumption.. |].
    apply PosixPathFacts.watertight_name_component; [| exact Hfmt].
    apply PosixPathFacts.stem_parse_no_sep.
Qed.

Lemma convert_returns_normalized_join_witness :
  let w := RefLibs.world_with "data/input/chair.ply" RefLibs.tetra_cloud in
  ("data/output" <> ""
   /\ ("data/output" ∈ fs_dirs w \/ fs_files w !! "data/output" = None)
   /\ PosixPath.plain_format "obj" = true
   /\ @exporter_available RefLibs.libs "data/output/chair_watertight.obj" = true)
  /\ exists w',
       convert_to_watertight_mesh (L := RefLibs.libs)
         "data/input/chair.ply" "data/output" 9 true "obj" w
       = (w', inr "data/output/chair_watertight.obj")
       /\ fs_dirs w' = {[ "data/output" ]} ∪ fs_dirs w
       /\ PosixPath.os_path_join "data/output"
            (watertight_name (PosixPath.stem (PosixPath.parse "data/input/chair.ply")) "obj")
          = "data/output/chair_watertight.obj".
Proof.
  intros w.
  assert (Hne : "data/output" <> "") by discriminate.
  assert (Hdir : "data/output" ∈ fs_dirs w \/ fs_files w !! "data/output" = None)
    by (right; reflexivity).
  destruct (convert_returns_normalized_join (L := RefLibs.libs)
              "data/input/chair.ply" "data/output" 9 true "obj" w
              Hne Hdir eq_refl eq_refl) as (w' & Hrun & Hdirs & _ & _).
  split; [exact (conj Hne (conj Hdir (conj eq_refl eq_refl))) |].
  exists w'. exact (conj Hrun (conj Hdirs eq_refl)).
Defined.

(** C10 as stated fails: with the output directory written ["./out"] the
    pipeline returns ["out/a_watertight.obj"], which is not the string
    [os.path.join] built. *)
Lemma convert_path_is_not_the_join :
  let w := RefLibs.world_with "in/a.ply" RefLibs.tetra_cloud in
  let joined :=
    PosixPath.os_path_join "./out"
      (watertight_name (PosixPath.stem (PosixPath.parse "in/a.ply")) "obj") in
  joined = "./out/a_watertight.obj"
  /\ snd (convert_to_watertight_mesh (L := RefLibs.libs) "in/a.ply" "./out" 9 true "obj" w)
     = inr "out/a_watertight.obj"
  /\ snd (convert_to_watertight_mesh (L := RefLibs.libs) "in/a.ply" "./out" 9 true "obj" w)
     <> inr joined.
Proof.
  intros w joined. split; [reflexivity |].
  assert (H : snd (convert_to_watertight_mesh (L := RefLibs.libs)
                     "in/a.ply" "./out" 9 true "obj" w) = inr "out/a_watertight.obj")
    by (vm_compute; reflexivity).
  split; [exact H |]. rewrite H. discriminate.
Qed.

(** C1, as the code has it: [make_watertight] never raises; it returns
    the mesh alone and reports the outcome in its last printed line
    ("Mesh is now watertight!" or "Warning: Mesh may not be fully
    watertight").  The pipeline does not abort on a mesh that is not
    watertight either: it exports the mesh, prints the outcome among the
    final statistics and returns the output path alone, which does not
    depend on the outcome. *)
Theorem repair_outcome_is_printed_not_returned
    {L : Libs} (mesh : TriangleMesh) (resolution : Z)
    (ply_path output_dir : string) (depth : Z) (clean : bool) (output_format : string)
    (w : World) :
  (exists msgs cs tri_mesh,
      runs (make_watertight mesh resolution) w
           (msgs ++ [status_line (is_watertight tri_mesh)]) cs tri_mesh
      /\ ~ In MsgNowWatertight msgs
      /\ ~ In MsgWarningMayNotBeWatertight msgs)
  /\ let p := PosixPath.normalize
                (PosixPath.os_path_join output_dir
                   (watertight_name (PosixPath.stem (PosixPath.parse ply_path))
                      output_format)) in
     (output_dir <> "" ->
      output_dir ∈ fs_dirs w \/ fs_files w !! output_dir = None ->
      PosixPath.plain_format output_format = true ->
      exporter_available p = true ->
      exists msgs cs tri_mesh,
        convert_to_watertight_mesh ply_path output_dir depth clean output_format w
        = (exported (with_dir output_dir w)
             (msgs ++ [status_line (is_watertight tri_mesh)]
              ++ MsgSaved p :: statistics tri_mesh)
             cs p tri_mesh,
           inr p)).
Proof.
  split; [apply make_watertight_runs |].
  intros p Hne Hdir Hfmt Hexp.
  pose proof (os_makedirs_ok output_dir w Hne Hdir) as Hmk.
  destruct (convert_succeeds ply_path output_dir depth clean output_format w _
              Hmk Hfmt Hexp) as (msgs & cs1 & cs2 & t & Hrun).
  eauto.
Qed.

Lemma repair_outcome_is_printed_not_returned_witness :
  let w := RefLibs.world_with "in/a.ply" (RefLibs.seven_corners 20000 1 1) in
  ("out" <> ""
   /\ ("out" ∈ fs_dirs w \/ fs_files w !! "out" = None)
   /\ PosixPath.plain_format "obj" = true
   /\ @exporter_available RefLibs.libs "out/a_watertight.obj" = true)
  /\ (exists msgs cs tri_mesh,
         runs (make_watertight (L := RefLibs.libs) RefLibs.open_square 1) w
              (msgs ++ [status_line (is_watertight tri_mesh)]) cs tri_mesh)
  /\ (exists msgs cs tri_mesh,
         convert_to_watertight_mesh (L := RefLibs.libs) "in/a.ply" "out" 9 true "obj" w
         = (exported (with_dir "out" w)
              (msgs ++ [status_line (is_watertight tri_mesh)]
               ++ MsgSaved "out/a_watertight.obj" :: statistics tri_mesh)
              cs "out/a_watertight.obj" tri_mesh,
            inr "out/a_watertight.obj")).
Proof.
  intros w.
  assert (Hne : "out" <> "") by discriminate.
  assert (Hdir : "out" ∈ fs_dirs w \/ fs_files w !! "out" = None) by (right; reflexivity).
  destruct (repair_outcome_is_printed_not_returned (L := RefLibs.libs)
              RefLibs.open_square 1 "in/a.ply" "out" 9 true "obj" w)
    as [(m1 & c1 & t1 & Hrepair & _ & _) Hpipeline].
  split; [exact (conj Hne (conj Hdir (conj eq_refl eq_refl))) |].
  split; [exists m1, c1, t1; exact Hrepair |].
  exact (Hpipeline Hne Hdir eq_refl eq_refl).
Defined.

(** C1 as stated fails: a run that ends watertight and a run that does
    not return the very same value, the output path; no function of the
    returned value is a status flag.  The outcome is in the printed lines
    only. *)
Lemma pipeline_returns_no_status_flag :
  let done_ :=
    convert_to_watertight_mesh (L := RefLibs.libs) "in/a.ply" "out" 9 true "obj"
      (RefLibs.world_with "in/a.ply" RefLibs.tetra_cloud) in
  let failed :=
    convert_to_watertight_mesh (L := RefLibs.libs) "in/a.ply" "out" 9 true "obj"
      (RefLibs.world_with "in/a.ply" (RefLibs.seven_corners 20000 1 1)) in
  snd done_ = inr "out/a_watertight.obj"
  /\ snd failed = inr "out/a_watertight.obj"
  /\ printed_watertight (fst done_) = [true]
  /\ printed_warning (fst done_) = false
  /\ printed_watertight (fst failed) = [false]
  /\ printed_warning (fst failed) = true
  /\ ~ (exists flag : Exn + string -> bool,
           flag (snd done_) = true /\ flag (snd failed) = false).
Proof.
  intros done_ failed.
  assert (Hd : snd done_ = inr "out/a_watertight.obj") by (vm_compute; reflexivity).
  assert (Hf : snd failed = inr "out/a_watertight.obj") by (vm_compute; reflexivity).
  split; [exact Hd |]. split; [exact Hf |].
  split; [vm_compute; reflexivity |]. split; [vm_compute; reflexivity |].
  split; [vm_compute; reflexivity |]. split; [vm_compute; reflexivity |].
  intros (flag & Ht & Hfalse). rewrite Hd in Ht. rewrite Hf in Hfalse.
  rewrite Ht in Hfalse. discriminate Hfalse.
Qed.

(** C2, as the code has it: the pipeline validates nothing.  The only
    thing that can stop it before stage 1 is [os.makedirs] on the output
    directory; once that is through, for every input file (also one with
    no or two points) and every depth (also zero or negative) the point
    cloud is read and Poisson reconstruction is called with the depth as
    given, width 0, scale 1.1 and no linear fit. *)
Theorem convert_runs_every_input
    {L : Libs} (ply_path output_dir : string) (depth : Z) (clean : bool)
    (output_format : string) (w : World) :
  match os_makedirs_exist_ok output_dir w with
  | (w1, inl e) =>
      w1 = w
      /\ (e = FileNotFoundError \/ e = FileExistsError)
      /\ convert_to_watertight_mesh ply_path output_dir depth clean output_format w
         = (w, inl e)
  | (w1, inr _) =>
      exists w' r cs1 cs2,
        convert_to_watertight_mesh ply_path output_dir depth clean output_format w
        = (w', r)
        /\ output_dir ∈ fs_dirs w'
        /\ calls w'
           = calls w
             ++ call_read_point_cloud ply_path :: cs1
             ++ call_create_from_point_cloud_poisson
                  depth default_width default_scale default_linear_fit :: cs2
  end.
Proof.
  destruct (os_makedirs_exist_ok output_dir w) as [w1 [e | []]] eqn:Hmk.
  - assert (Hw : w1 = w /\ (e = FileNotFoundError \/ e = FileExistsError)).
    { unfold os_makedirs_exist_ok in Hmk.
      destruct (String.eqb output_dir ""); [injection Hmk as <- <-; auto |].
      destruct (decide (output_dir ∈ fs_dirs w)); [discriminate Hmk |].
      destruct (decide (is_Some (fs_files w !! output_dir)));
        [injection Hmk as <- <-; auto | discriminate Hmk]. }
    destruct Hw as [-> He]. split; [reflexivity |]. split; [exact He |].
    unfold convert_to_watertight_mesh. now apply bind_inl.
  - assert (Hdir : output_dir ∈ fs_dirs w1).
    { unfold os_makedirs_exist_ok in Hmk.
      destruct (String.eqb output_dir ""); [discriminate Hmk |].
      destruct (decide (output_dir ∈ fs_dirs w)) as [Hin | _];
        [injection Hmk as <-; exact Hin |].
      destruct (decide (is_Some (fs_files w !! output_dir))); [discriminate Hmk |].
      injection Hmk as <-. cbn. apply elem_of_union_l. now apply elem_of_singleton. }
    assert (Hcalls : calls w1 = calls w).
    { unfold os_makedirs_exist_ok in Hmk.
      destruct (String.eqb output_dir ""); [discriminate Hmk |].
      destruct (decide (output_dir ∈ fs_dirs w)); [now injection Hmk as <- |].
      destruct (decide (is_Some (fs_files w !! output_dir))); [discriminate Hmk |].
      now injection Hmk as <-. }
    destruct (convert_outcome ply_path output_dir depth clean output_format w w1 Hmk)
      as (msgs & cs1 & cs2 & t & H).
    cbv zeta in H. rewrite H. clear H.
    destruct (PosixPath.with_suffix _ _) as [p|].
    + destruct (exporter_available (PosixPath.str p)).
      * exists (exported w1
                  ((msgs ++ [status_line (is_watertight t)])
                   ++ MsgSaved (PosixPath.str p) :: statistics t)
                  (call_read_point_cloud ply_path :: cs1
                   ++ call_create_from_point_cloud_poisson depth default_width
                        default_scale default_linear_fit :: cs2)
                  (PosixPath.str p) t),
          (inr (PosixPath.str p)), cs1, (cs2 ++ [call_export (PosixPath.str p)]).
        split; [reflexivity |]. split; [exact Hdir |].
        cbn [exported calls]. rewrite Hcalls.
        repeat (rewrite <- ?app_assoc; cbn). reflexivity.
      * do 4 eexists. split; [reflexivity |]. split; [exact Hdir |].
        cbn [emit calls]. now rewrite Hcalls.
    + do 4 eexists. split; [reflexivity |]. split; [exact Hdir |].
      cbn [emit calls]. now rewrite Hcalls.
Qed.

(** C2 as stated fails: a point cloud of two points at depth 0 is not
    rejected.  The output directory is created, the cloud is read,
    reconstruction runs at depth 0 and a mesh file is written. *)
Lemma invalid_input_is_not_rejected :
  let w := RefLibs.world_with "in/a.ply" RefLibs.two_points in
  let r := convert_to_watertight_mesh (L := RefLibs.libs) "in/a.ply" "out" 0 true "obj" w in
  length (pcd_points (stored_cloud w "in/a.ply")) = 2%nat
  /\ snd r = inr "out/a_watertight.obj"
  /\ elements (fs_dirs w) = []
  /\ elements (fs_dirs (fst r)) = ["out"]
  /\ printed_points (fst r) = [2%nat]
  /\ poisson_depths (fst r) = [0%Z]
  /\ exports (fst r) = ["out/a_watertight.obj"]
  /\ bool_decide (is_Some (fs_files (fst r) !! "out/a_watertight.obj")) = true.
Proof.
  intros w r. repeat split; vm_compute; reflexivity.
Qed.

(** * Examples *)

(** ** Paths *)

Example parse_drops_dot_and_empty_components :
  PosixPath.normalize "./out//a.tar.gz" = "out/a.tar.gz"
  /\ PosixPath.normalize "" = "."
  /\ PosixPath.parse "//a/./b/" = PosixPath.mkPath "//" ["a"; "b"]
  /\ PosixPath.parse "///a" = PosixPath.mkPath "/" ["a"].
Proof. repeat split; reflexivity. Qed.

Example with_suffix_replaces_the_last_suffix :
  option_map PosixPath.str
    (PosixPath.with_suffix (PosixPath.parse "out/model.tar.gz") ".obj")
  = Some "out/model.tar.obj"
  /\ option_map PosixPath.str (PosixPath.with_suffix (PosixPath.parse ".hidden") ".obj")
     = Some ".hidden.obj"
  /\ option_map PosixPath.str (PosixPath.with_suffix (PosixPath.parse "model.") ".obj")
     = Some "model..obj".
Proof. repeat split; reflexivity. Qed.

Example with_suffix_raises :
  PosixPath.with_suffix (PosixPath.parse "/") ".obj" = None
  /\ PosixPath.with_suffix (PosixPath.parse "") ".obj" = None
  /\ PosixPath.with_suffix (PosixPath.parse "a") "." = None
  /\ PosixPath.with_suffix (PosixPath.parse "a") ".o/bj" = None.
Proof. repeat split; reflexivity. Qed.

Example os_path_join_separator :
  PosixPath.os_path_join "out/" "a" = "out/a"
  /\ PosixPath.os_path_join "out" "a" = "out/a"
  /\ PosixPath.os_path_join "" "a" = "a"
  /\ PosixPath.os_path_join "out" "/a" = "/a".
Proof. repeat split; reflexivity. Qed.

(** ** The three ends of watertight repair, on the executable library *)

Example repair_done_as_is :
  let r := make_watertight (L := RefLibs.libs) RefLibs.tetra 20000 RefLibs.empty_world in
  length (calls (fst r)) = 0%nat /\ printed_warning (fst r) = false.
Proof. intros r. split; vm_compute; reflexivity. Qed.

Example repair_done_by_hole_filling :
  let r := make_watertight (L := RefLibs.libs) RefLibs.open_tetra 20000
             RefLibs.empty_world in
  length (calls (fst r)) = 1%nat /\ printed_warning (fst r) = false.
Proof. intros r. split; vm_compute; reflexivity. Qed.

Example repair_done_by_voxelization :
  let r := make_watertight (L := RefLibs.libs) RefLibs.open_square 2
             RefLibs.empty_world in
  length (calls (fst r)) = 5%nat /\ printed_warning (fst r) = false.
Proof. intros r. split; vm_compute; reflexivity. Qed.

Example repair_failed :
  let r := make_watertight (L := RefLibs.libs) RefLibs.open_square 1
             RefLibs.empty_world in
  length (calls (fst r)) = 5%nat /\ printed_warning (fst r) = true.
Proof. intros r. split; vm_compute; reflexivity. Qed.

(** ** Cleaning, on the executable library *)

Example clean_messy :
  let r := clean_mesh (L := RefLibs.libs) RefLibs.messy (Some [1; 2; 3; 4; 5]%Q)
             (1 # 4)%Q RefLibs.empty_world in
  length (calls (fst r)) = 5%nat
  /\ match snd r with
     | inr m => (length (vertices m), length (triangles m)) = (4%nat, 2%nat)
     | inl _ => False
     end.
Proof. intros r. split; vm_compute; reflexivity. Qed.

(** * Further properties of the converter *)

(** ** [save_mesh] *)

Section SaveMesh.

Context {L : Libs}.

Import PosixPath.

Lemma valid_suffix_dot (f : string) :
  valid_suffix (String dot f) = negb (PyStr.contains sep f) && negb (String.eqb f "").
Proof.
  unfold valid_suffix. cbn [PyStr.contains PyStr.startswith].
  rewrite PosixPathFacts.sep_not_dot. cbn [orb].
  destruct (PyStr.contains sep f); [reflexivity |].
  destruct f; reflexivity.
Qed.

Lemma with_suffix_none_iff (p : PurePath) (f : string) :
  with_suffix p (String dot f) = None
  <-> name p = "" \/ f = "" \/ PyStr.contains sep f = true.
Proof.
  unfold with_suffix. rewrite valid_suffix_dot.
  destruct (PyStr.contains sep f) eqn:Es; cbn.
  - split; auto.
  - destruct (String.eqb f "") eqn:Ef; cbn.
    + apply String.eqb_eq in Ef. split; auto.
    + apply String.eqb_neq in Ef.
      destruct (String.eqb (name p) "") eqn:En.
      * apply String.eqb_eq in En. split; auto.
      * apply String.eqb_neq in En. split; [discriminate |].
        intros [H | [H | H]]; [contradiction | contradiction | discriminate H].
Qed.


Lemma with_suffix_fixed (p : PurePath) (f : string) :
  name p <> "" -> plain_format f = true ->
  let p' := mkPath (root p)
              (List.removelast (tail p) ++ [String.append (stem p) (String dot f)]) in
  with_suffix p' (String dot f) = Some p'.
Proof.
  intros Hn Hf p'.
  destruct (PosixPathFacts.plain_format_inv f Hf) as (Hne & _ & Hdot).
  pose proof (PosixPathFacts.name_stem_nonempty _ Hn) as Hstem.
  fold (stem p) in Hstem.
  assert (Hname : name p' = String.append (stem p) (String dot f)).
  { unfold name, p'. cbn [tail]. apply last_last. }
  assert (Hstem' : stem p' = stem p).
  { unfold stem at 1. rewrite Hname.
    apply (PosixPathFacts.name_stem_new (stem p) f Hstem Hne Hdot). }
  rewrite PosixPathFacts.with_suffix_plain; [| | exact Hf].
  - rewrite Hstem'. unfold p'. cbn [root tail]. now rewrite removelast_last.
  - rewrite Hname. destruct (stem p); [contradiction | discriminate].
Qed.

(** X2: saving again to the path [save_mesh] returned, in the same
    format, goes to the same path and changes no file. *)
Theorem save_mesh_again_same_path
    (mesh : Trimesh) (output_path file_format : string) (w : World) :
  let p := parse output_path in
  let saved := str (mkPath (root p)
                      (List.removelast (tail p)
                       ++ [String.append (stem p) (String.append "." file_format)])) in
  name p <> "" ->
  plain_format file_format = true ->
  exporter_available saved = true ->
  exists w1 w2,
    save_mesh mesh output_path file_format w = (w1, inr saved)
    /\ save_mesh mesh saved file_format w1 = (w2, inr saved)
    /\ fs_files w2 = fs_files w1.
Proof.
  intros p saved Hn Hf Hex.
  set (p' := mkPath (root p)
               (List.removelast (tail p)
                ++ [String.append (stem p) (String.append "." file_format)])) in *.
  assert (Hnormal : normal p' = true).
  { apply PosixPathFacts.with_suffix_normal;
      [apply PosixPathFacts.parse_normal | assumption..]. }
  assert (H1 : with_suffix (parse output_path) (String.append "." file_format) = Some p')
    by now apply PosixPathFacts.with_suffix_plain.
  assert (H2 : with_suffix (parse saved) (String.append "." file_format) = Some p').
  { unfold saved. rewrite (PosixPathFacts.parse_str p' Hnormal).
    now apply (with_suffix_fixed p file_format). }
  do 2 eexists. split; [| split].
  - rewrite (save_mesh_some mesh _ _ p' w H1). fold saved. now rewrite Hex.
  - rewrite (save_mesh_some mesh _ _ p' _ H2). fold saved. now rewrite Hex.
  - cbn [exported fs_files]. apply insert_insert_eq.
Qed.

Lemma append_inj_r (a b c : string) : String.append a b = String.append a c -> b = c.
Proof.
  induction a as [|x a IH]; [now rewrite !PyStrFacts.append_nil |].
  rewrite !PyStrFacts.append_cons. intros [= H]. now apply IH.
Qed.

(** Two normal paths with the same string are the same path. *)
Lemma str_inj (a b : PurePath) :
  normal a = true -> normal b = true -> str a = str b -> a = b.
Proof.
  intros Ha Hb H.
  rewrite <- (PosixPathFacts.parse_str a Ha), <- (PosixPathFacts.parse_str b Hb).
  now rewrite H.
Qed.

(** X3: saving one path in two different formats writes two different
    files, and the second save leaves the first file as it was. *)
Theorem save_mesh_two_formats
    (mesh1 mesh2 : Trimesh) (output_path format1 format2 : string) (w : World) :
  let p := parse output_path in
  let saved f := str (mkPath (root p)
                        (List.removelast (tail p)
                         ++ [String.append (stem p) (String.append "." f)])) in
  name p <> "" ->
  plain_format format1 = true -> plain_format format2 = true ->
  format1 <> format2 ->
  exporter_available (saved format1) = true ->
  exporter_available (saved format2) = true ->
  exists w1 w2,
    save_mesh mesh1 output_path format1 w = (w1, inr (saved format1))
    /\ save_mesh mesh2 output_path format2 w1 = (w2, inr (saved format2))
    /\ saved format1 <> saved format2
    /\ fs_files w2 !! saved format1 = Some (MeshFile mesh1)
    /\ fs_files w2 !! saved format2 = Some (MeshFile mesh2).
Proof.
  intros p saved Hn Hf1 Hf2 Hne Hex1 Hex2.
  assert (Hdiff : saved format1 <> saved format2).
  { intros E. apply Hne. unfold saved in E.
    apply str_inj in E;
      [| apply PosixPathFacts.with_suffix_normal;
           [apply PosixPathFacts.parse_normal | assumption..] ..].
    injection E as E. apply app_inj_tail in E as [_ E].
    apply append_inj_r in E. now injection E. }
  assert (Hsuffix : forall f, plain_format f = true ->
            with_suffix (parse output_path) (String.append "." f)
            = Some (mkPath (root p)
                      (List.removelast (tail p)
                       ++ [String.append (stem p) (String.append "." f)])))
    by (intros f Hf; now apply PosixPathFacts.with_suffix_plain).
  do 2 eexists. split; [| split; [| split; [exact Hdiff | split]]].
  - rewrite (save_mesh_some mesh1 _ _ _ w (Hsuffix format1 Hf1)).
    fold (saved format1). now rewrite Hex1.
  - rewrite (save_mesh_some mesh2 _ _ _ _ (Hsuffix format2 Hf2)).
    fold (saved format2). now rewrite Hex2.
  - cbn [exported fs_files]. rewrite lookup_insert_ne by (intros E; now apply Hdiff).
    apply lookup_insert_eq.
  - cbn [exported fs_files]. apply lookup_insert_eq.
Qed.

End SaveMesh.


Lemma save_mesh_again_same_path_witness :
  PosixPath.name (PosixPath.parse "output/model") <> ""
  /\ PosixPath.plain_format "ply" = true
  /\ @exporter_available RefLibs.libs "output/model.ply" = true
  /\ exists w1 w2,
       save_mesh (L := RefLibs.libs) RefLibs.tetra "output/model" "ply" RefLibs.empty_world
       = (w1, inr "output/model.ply")
       /\ save_mesh (L := RefLibs.libs) RefLibs.tetra "output/model.ply" "ply" w1
          = (w2, inr "output/model.ply")
       /\ fs_files w2 = fs_files w1.
Proof.
  assert (Hname : PosixPath.name (PosixPath.parse "output/model") <> "") by discriminate.
  exact (conj Hname (conj eq_refl (conj eq_refl
           (save_mesh_again_same_path (L := RefLibs.libs) RefLibs.tetra "output/model" "ply"
              RefLibs.empty_world Hname eq_refl eq_refl)))).
Defined.

Lemma save_mesh_two_formats_witness :
  PosixPath.name (PosixPath.parse "output/model.obj") <> ""
  /\ PosixPath.plain_format "obj" = true /\ PosixPath.plain_format "stl" = true
  /\ "obj" <> "stl"
  /\ @exporter_available RefLibs.libs "output/model.obj" = true
  /\ @exporter_available RefLibs.libs "output/model.stl" = true
  /\ exists w1 w2,
       save_mesh (L := RefLibs.libs) RefLibs.tetra "output/model.obj" "obj"
                 RefLibs.empty_world
       = (w1, inr "output/model.obj")
       /\ save_mesh (L := RefLibs.libs) RefLibs.open_tetra "output/model.obj" "stl" w1
          = (w2, inr "output/model.stl")
       /\ "output/model.obj" <> "output/model.stl"
       /\ fs_files w2 !! "output/model.obj"
          = Some (MeshFile (L := RefLibs.libs) RefLibs.tetra)
       /\ fs_files w2 !! "output/model.stl"
          = Some (MeshFile (L := RefLibs.libs) RefLibs.open_tetra).
Proof.
  assert (Hname : PosixPath.name (PosixPath.parse "output/model.obj") <> "")
    by discriminate.
  assert (Hne : "obj" <> "stl") by discriminate.
  exact (conj Hname (conj eq_refl (conj eq_refl (conj Hne (conj eq_refl (conj eq_refl
           (save_mesh_two_formats (L := RefLibs.libs) RefLibs.tetra RefLibs.open_tetra
              "output/model.obj" "obj" "stl" RefLibs.empty_world
              Hname eq_refl eq_refl Hne eq_refl eq_refl))))))).
Defined.

(** ** The order of the pipeline's calls *)

Section PipelineTrace.

Context {L : Libs}.

Import PosixPath.

Lemma os_makedirs_inr (output_dir : string) (w w1 : World) (u : unit) :
  os_makedirs_exist_ok output_dir w = (w1, inr u) ->
  w1 = with_dir output_dir w /\ output_dir <> "".
Proof.
  unfold os_makedirs_exist_ok. intros H.
  destruct (String.eqb output_dir "") eqn:E; [discriminate H |].
  apply String.eqb_neq in E. split; [| exact E].
  destruct (decide (output_dir ∈ fs_dirs w)) as [Hin | _].
  - injection H as <-. now rewrite with_dir_existing.
  - destruct (decide (is_Some (fs_files w !! output_dir))); [discriminate H |].
    now injection H as <-.
Qed.


Lemma normals_step_trace (pcd : PointCloud) (w : World) :
  exists msgs pcd',
    runs (if negb (has_normals pcd) then estimate_normals pcd else mret pcd) w
         msgs (if has_normals pcd then [] else estimator_calls pcd) pcd'.
Proof.
  destruct (has_normals pcd); cbn [negb].
  - do 2 eexists. apply runs_ret.
  - do 2 eexists. apply estimate_normals_runs.
Qed.

Lemma clean_step_trace (mesh : TriangleMesh) (densities : list float) (clean : bool)
    (thr : float) (w : World) :
  exists msgs mesh',
    runs (if clean then clean_mesh mesh (Some densities) thr else mret mesh) w msgs
         (if clean
          then call_remove_vertices_by_mask
                 (map (fun d => flt d (np_quantile densities thr)) densities)
               :: topology_pass_calls
          else [])
         mesh'.
Proof.
  destruct clean.
  - do 2 eexists. apply clean_mesh_runs_some.
  - do 2 eexists. apply runs_ret.
Qed.

Lemma make_watertight_trace (mesh : TriangleMesh) (resolution : Z) (w : World) :
  exists msgs cs t,
    runs (make_watertight mesh resolution) w
         (msgs ++ [status_line (is_watertight t)]) cs t
    /\ forallb is_repair_call cs = true.
Proof.
  set (t0 := trimesh_Trimesh (vertices mesh) (triangles mesh)).
  destruct (is_watertight t0) eqn:H0.
  - exists [MsgMakingWatertight], [], t0. rewrite H0.
    split; [now apply make_watertight_done | reflexivity].
  - destruct (is_watertight (fill_holes t0)) eqn:H1.
    + exists [MsgMakingWatertight; MsgNotWatertightAttemptingFix], [call_fill_holes],
        (fill_holes t0).
      rewrite H1. split; [now apply make_watertight_hole_filled | reflexivity].
    + eexists [MsgMakingWatertight; MsgNotWatertightAttemptingFix; MsgUsingVoxelization],
        _, _.
      split; [now apply make_watertight_voxelized | reflexivity].
Qed.

(** The calls of a run, stage by stage, and how the run ends. *)
Lemma convert_trace (ply_path output_dir : string) (depth : Z) (clean : bool)
    (output_format : string) (w w1 : World) :
  os_makedirs_exist_ok output_dir w = (w1, inr tt) ->
  exists msgs mask repair tri_mesh,
    let pcd := stored_cloud w ply_path in
    let output_path :=
      os_path_join output_dir (watertight_name (stem (parse ply_path)) output_format) in
    let msgs := msgs ++ [status_line (is_watertight tri_mesh)] in
    let cs := call_read_point_cloud ply_path
              :: (if has_normals pcd then [] else estimator_calls pcd)
              ++ call_create_from_point_cloud_poisson
                   depth default_width default_scale default_linear_fit
              :: (if clean then call_remove_vertices_by_mask mask :: topology_pass_calls
                  else [])
              ++ repair in
    forallb is_repair_call repair = true
    /\ convert_to_watertight_mesh ply_path output_dir depth clean output_format w
       = match with_suffix (parse output_path) (String.append "." output_format) with
         | None => (emit w1 msgs cs, inl ValueError)
         | Some p =>
             if exporter_available (str p)
             then (exported w1 (msgs ++ MsgSaved (str p) :: statistics tri_mesh) cs
                            (str p) tri_mesh,
                   inr (str p))
             else (emit w1 msgs cs, inl ExportError)
         end.
Proof.
  intros Hmk.
  assert (Hcloud : stored_cloud w1 ply_path = stored_cloud w ply_path).
  { destruct (os_makedirs_inr _ _ _ _ Hmk) as [-> _]. reflexivity. }
  pose proof (load_point_cloud_runs ply_path w1) as Hload.
  rewrite Hcloud in Hload.
  set (pcd0 := stored_cloud w ply_path) in *.
  set (w11 := emit w1 [MsgLoaded (length (pcd_points pcd0))]
                   [call_read_point_cloud ply_path]) in *.
  destruct (normals_step_trace pcd0 w11) as (m2 & pcd & Hnorm).
  set (c2 := if has_normals pcd0 then [] else estimator_calls pcd0) in *.
  set (w12 := emit w11 m2 c2) in *.
  pose proof (poisson_reconstruction_runs pcd depth default_width default_scale
                default_linear_fit w12) as Hpois.
  cbv zeta in Hpois.
  destruct (create_from_point_cloud_poisson pcd depth default_width default_scale
              default_linear_fit) as [mesh densities] eqn:Er.
  cbn [fst] in Hpois.
  set (mp := [MsgRunningPoisson depth;
              MsgReconstructed (length (vertices mesh)) (length (triangles mesh))]) in *.
  set (cp := [call_create_from_point_cloud_poisson depth default_width default_scale
                default_linear_fit]) in *.
  set (w13 := emit w12 mp cp) in *.
  destruct (clean_step_trace mesh densities clean default_density_threshold w13)
    as (m4 & mesh' & Hclean).
  set (mask := map (fun d => flt d (np_quantile densities default_density_threshold))
                   densities) in *.
  set (c4 := if clean then call_remove_vertices_by_mask mask :: topology_pass_calls
             else []) in *.
  set (w14 := emit w13 m4 c4) in *.
  destruct (make_watertight_trace mesh' default_resolution w14)
    as (m5 & c5 & t & Hwt & Hrepair).
  exists ([MsgLoaded (length (pcd_points pcd0))] ++ m2 ++ mp ++ m4 ++ m5), mask, c5, t.
  cbv zeta. split; [exact Hrepair |].
  unfold convert_to_watertight_mesh.
  rewrite (bind_inr _ _ _ _ _ Hmk).
  unfold runs in *.
  rewrite (bind_inr _ _ _ _ _ Hload).
  rewrite (bind_inr _ _ _ _ _ Hnorm).
  rewrite (bind_inr _ _ _ _ _ Hpois).
  rewrite (bind_inr _ _ _ _ _ Hclean).
  rewrite (bind_inr _ _ _ _ _ Hwt).
  assert (Hw : emit w14 (m5 ++ [status_line (is_watertight t)]) c5
               = emit w1 (([MsgLoaded (length (pcd_points pcd0))] ++ m2 ++ mp ++ m4 ++ m5)
                          ++ [status_line (is_watertight t)])
                      (call_read_point_cloud ply_path :: c2
                       ++ call_create_from_point_cloud_poisson depth default_width
                            default_scale default_linear_fit :: c4 ++ c5)).
  { unfold w14, w13, w12, w11, mp, cp. rewrite !emit_emit. f_equal.
    all: repeat (rewrite <- ?app_assoc; cbn); reflexivity. }
  rewrite Hw. clear Hw.
  destruct (with_suffix _ _) as [p|] eqn:Ep.
  - match goal with |- context [save_mesh t ?op ?f] =>
      pose proof (fun w0 => save_mesh_some t op f p w0 Ep) as Hs end.
    match goal with |- (_ ≫= _) ?w0 = _ => specialize (Hs w0) end.
    destruct (exporter_available (str p)).
    + rewrite (bind_inr _ _ _ _ _ Hs). unfold exported, statistics.
      unfold mbind, M_bind, bind, mret, M_ret, ret, print, emit. cbn.
      repeat (rewrite <- ?app_assoc; cbn). reflexivity.
    + now rewrite (bind_inl _ _ _ _ _ Hs).
  - match goal with |- context [save_mesh t ?op ?f] =>
      pose proof (fun w0 => save_mesh_none t op f w0 Ep) as Hs end.
    match goal with |- (_ ≫= _) ?w0 = _ => specialize (Hs w0) end.
    now rewrite (bind_inl _ _ _ _ _ Hs).
Qed.

End PipelineTrace.

Section PipelineOrder.

Context {L : Libs}.

Import PosixPath.

(** Every run that gets past [os.makedirs] makes its calls in stage
    order: read; the estimator if the cloud has no normals; Poisson; the
    cleaner if asked; repair; at most one export. *)
Lemma convert_calls (ply_path output_dir : string) (depth : Z) (clean : bool)
    (output_format : string) (w : World) :
  output_dir <> "" ->
  output_dir ∈ fs_dirs w \/ fs_files w !! output_dir = None ->
  exists w' r mask repair exporting,
    convert_to_watertight_mesh ply_path output_dir depth clean output_format w = (w', r)
    /\ forallb is_repair_call repair = true
    /\ forallb is_export_call exporting = true
    /\ calls w'
       = calls w
         ++ call_read_point_cloud ply_path
         :: (if has_normals (stored_cloud w ply_path) then []
             else estimator_calls (stored_cloud w ply_path))
         ++ call_create_from_point_cloud_poisson
              depth default_width default_scale default_linear_fit
         :: (if clean then call_remove_vertices_by_mask mask :: topology_pass_calls
             else [])
         ++ repair ++ exporting.
Proof.
  intros Hne Hdir.
  pose proof (os_makedirs_ok output_dir w Hne Hdir) as Hmk.
  destruct (convert_trace ply_path output_dir depth clean output_format w _ Hmk)
    as (msgs & mask & repair & t & Hrepair & H).
  cbv zeta in H. rewrite H. clear H.
  destruct (with_suffix _ _) as [p|].
  - destruct (exporter_available (str p)).
    + eexists _, _, mask, repair, [call_export (str p)].
      split; [reflexivity |]. split; [exact Hrepair |]. split; [reflexivity |].
      cbn [exported calls with_dir]. repeat (rewrite <- ?app_assoc; cbn). reflexivity.
    + eexists _, _, mask, repair, [].
      split; [reflexivity |]. split; [exact Hrepair |]. split; [reflexivity |].
      cbn [emit calls with_dir]. now rewrite app_nil_r.
  - eexists _, _, mask, repair, [].
    split; [reflexivity |]. split; [exact Hrepair |]. split; [reflexivity |].
    cbn [emit calls with_dir]. now rewrite app_nil_r.
Qed.

Lemma repair_calls_only (P : Call -> bool) (cs : list Call) :
  (forall c, is_repair_call c = true -> P c = false) ->
  forallb is_repair_call cs = true -> List.filter P cs = [].
Proof.
  intros HP. induction cs as [|c cs IH]; [reflexivity |].
  cbn [forallb List.filter]. intros H. apply andb_prop in H as [Hc Hcs].
  now rewrite (HP c Hc), (IH Hcs).
Qed.

Lemma export_calls_only (P : Call -> bool) (cs : list Call) :
  (forall c, is_export_call c = true -> P c = false) ->
  forallb is_export_call cs = true -> List.filter P cs = [].
Proof.
  intros HP. induction cs as [|c cs IH]; [reflexivity |].
  cbn [forallb List.filter]. intros H. apply andb_prop in H as [Hc Hcs].
  now rewrite (HP c Hc), (IH Hcs).
Qed.

(** X4: the pipeline estimates normals exactly when the cloud it read
    has none: the three estimator calls come right after the read then,
    and no estimator call is made otherwise or later. *)
Theorem convert_estimates_normals_only_when_absent
    (ply_path output_dir : string) (depth : Z) (clean : bool) (output_format : string)
    (w : World) :
  output_dir <> "" ->
  output_dir ∈ fs_dirs w \/ fs_files w !! output_dir = None ->
  exists w' r rest,
    convert_to_watertight_mesh ply_path output_dir depth clean output_format w = (w', r)
    /\ calls w'
       = calls w
         ++ call_read_point_cloud ply_path
         :: (if has_normals (stored_cloud w ply_path) then []
             else estimator_calls (stored_cloud w ply_path))
         ++ call_create_from_point_cloud_poisson
              depth default_width default_scale default_linear_fit
         :: rest
    /\ List.filter is_estimator_call rest = [].
Proof.
  intros Hne Hdir.
  destruct (convert_calls ply_path output_dir depth clean output_format w Hne Hdir)
    as (w' & r & mask & repair & exporting & Hrun & Hrep & Hexp & Hcalls).
  exists w', r. eexists. split; [exact Hrun |]. split; [exact Hcalls |].
  rewrite !List.filter_app.
  rewrite (repair_calls_only is_estimator_call repair) by (solve [now intros []] || exact Hrep).
  rewrite (export_calls_only is_estimator_call exporting)
    by (solve [now intros []] || exact Hexp).
  now destruct clean.
Qed.

(** X5: the removal calls of a run are exactly the cleaner's five, mask
    removal first, when [clean] is set, and none when it is not. *)
Theorem convert_cleans_only_when_asked
    (ply_path output_dir : string) (depth : Z) (clean : bool) (output_format : string)
    (w : World) :
  output_dir <> "" ->
  output_dir ∈ fs_dirs w \/ fs_files w !! output_dir = None ->
  exists w' r cs mask,
    convert_to_watertight_mesh ply_path output_dir depth clean output_format w = (w', r)
    /\ calls w' = calls w ++ cs
    /\ List.filter is_removal_call cs
       = if clean then call_remove_vertices_by_mask mask :: topology_pass_calls else [].
Proof.
  intros Hne Hdir.
  destruct (convert_calls ply_path output_dir depth clean output_format w Hne Hdir)
    as (w' & r & mask & repair & exporting & Hrun & Hrep & Hexp & Hcalls).
  exists w', r. eexists. exists mask. split; [exact Hrun |]. split; [exact Hcalls |].
  cbn [List.filter is_removal_call].
  rewrite !List.filter_app. cbn [List.filter is_removal_call].
  rewrite !List.filter_app.
  rewrite (repair_calls_only is_removal_call repair) by (solve [now intros []] || exact Hrep).
  rewrite (export_calls_only is_removal_call exporting)
    by (solve [now intros []] || exact Hexp).
  rewrite !app_nil_r.
  assert (Hest : List.filter is_removal_call
                   (if has_normals (stored_cloud w ply_path) then []
                    else estimator_calls (stored_cloud w ply_path)) = [])
    by now destruct (has_normals (stored_cloud w ply_path)).
  rewrite Hest. now destruct clean.
Qed.

End PipelineOrder.

Lemma convert_estimates_normals_only_when_absent_witness :
  let w := RefLibs.world_with "in/a.ply" RefSamples.tetra_with_normals in
  ("out" <> "" /\ ("out" ∈ fs_dirs w \/ fs_files w !! "out" = None))
  /\ exists w' r rest,
       convert_to_watertight_mesh (L := RefLibs.libs) "in/a.ply" "out" 9 true "obj" w
       = (w', r)
       /\ calls w'
          = calls w
            ++ call_read_point_cloud "in/a.ply"
            :: call_create_from_point_cloud_poisson
                 9 default_width default_scale default_linear_fit
            :: rest
       /\ List.filter is_estimator_call rest = [].
Proof.
  intros w.
  assert (Hne : "out" <> "") by discriminate.
  assert (Hdir : "out" ∈ fs_dirs w \/ fs_files w !! "out" = None) by (right; reflexivity).
  exact (conj (conj Hne Hdir)
           (convert_estimates_normals_only_when_absent (L := RefLibs.libs)
              "in/a.ply" "out" 9 true "obj" w Hne Hdir)).
Defined.

Lemma convert_cleans_only_when_asked_witness :
  let w := RefLibs.world_with "in/a.ply" RefLibs.tetra_cloud in
  ("out" <> "" /\ ("out" ∈ fs_dirs w \/ fs_files w !! "out" = None))
  /\ exists w' r cs (mask : list bool),
       convert_to_watertight_mesh (L := RefLibs.libs) "in/a.ply" "out" 9 false "obj" w
       = (w', r)
       /\ calls w' = calls w ++ cs
       /\ List.filter is_removal_call cs = [].
Proof.
  intros w.
  assert (Hne : "out" <> "") by discriminate.
  assert (Hdir : "out" ∈ fs_dirs w \/ fs_files w !! "out" = None) by (right; reflexivity).
  exact (conj (conj Hne Hdir)
           (convert_cleans_only_when_asked (L := RefLibs.libs)
              "in/a.ply" "out" 9 false "obj" w Hne Hdir)).
Defined.

(** ** How the pipeline ends *)

Section PipelineEnds.

Context {L : Libs}.

Import PosixPath.

(** X6: a format that is empty or holds a separator is found out only
    when the mesh is to be saved: the output directory is made, the cloud
    is read, reconstructed and repaired, and then [ValueError] is raised;
    no file is written and nothing is exported. *)
Theorem convert_invalid_format_fails_late
    (ply_path output_dir : string) (depth : Z) (clean : bool) (output_format : string)
    (w : World) :
  output_dir <> "" ->
  output_dir ∈ fs_dirs w \/ fs_files w !! output_dir = None ->
  output_format = "" \/ PyStr.contains sep output_format = true ->
  exists w' cs,
    convert_to_watertight_mesh ply_path output_dir depth clean output_format w
    = (w', inl ValueError)
    /\ fs_files w' = fs_files w
    /\ output_dir ∈ fs_dirs w'
    /\ calls w' = calls w ++ cs
    /\ In (call_create_from_point_cloud_poisson
             depth default_width default_scale default_linear_fit) cs
    /\ List.filter is_export_call cs = [].
Proof.
  intros Hne Hdir Hbad.
  pose proof (os_makedirs_ok output_dir w Hne Hdir) as Hmk.
  destruct (convert_trace ply_path output_dir depth clean output_format w _ Hmk)
    as (msgs & mask & repair & t & Hrepair & H).
  cbv zeta in H.
  assert (Hnone : with_suffix
                    (parse (os_path_join output_dir
                              (watertight_name (stem (parse ply_path)) output_format)))
                    (String.append "." output_format) = None).
  { apply (with_suffix_none_iff _ output_format). now right. }
  rewrite Hnone in H. do 2 eexists. split; [exact H |].
  cbn [emit fs_files fs_dirs calls with_dir].
  split; [reflexivity |]. split; [apply elem_of_union_l; now apply elem_of_singleton |].
  split; [reflexivity |]. split.
  - right. apply in_or_app. right. now left.
  - cbn [List.filter is_export_call]. rewrite !List.filter_app.
    cbn [List.filter is_export_call]. rewrite !List.filter_app.
    rewrite (repair_calls_only is_export_call repair)
      by (solve [now intros []] || exact Hrepair).
    destruct (has_normals (stored_cloud w ply_path)); now destruct clean.
Qed.

(** X7: whenever the pipeline returns a path, the mesh whose statistics
    were printed last is the file at that path, no other file was
    touched, and the output directory is there. *)
Theorem convert_returned_path_holds_the_mesh
    (ply_path output_dir : string) (depth : Z) (clean : bool) (output_format : string)
    (w w' : World) (p : string) :
  convert_to_watertight_mesh ply_path output_dir depth clean output_format w
  = (w', inr p) ->
  exists tri_mesh printed,
    fs_files w' = <[ p := MeshFile tri_mesh ]> (fs_files w)
    /\ fs_dirs w' = {[ output_dir ]} ∪ fs_dirs w
    /\ stdout w' = printed ++ MsgSaved p :: statistics tri_mesh.
Proof.
  intros Hrun.
  destruct (os_makedirs_exist_ok output_dir w) as [w1 [e | []]] eqn:Hmk.
  - unfold convert_to_watertight_mesh in Hrun.
    rewrite (bind_inl _ _ _ _ _ Hmk) in Hrun. discriminate Hrun.
  - destruct (convert_trace ply_path output_dir depth clean output_format w _ Hmk)
      as (msgs & mask & repair & t & _ & H).
    cbv zeta in H. rewrite H in Hrun. clear H.
    destruct (os_makedirs_inr _ _ _ _ Hmk) as [-> _].
    destruct (with_suffix _ _) as [p0|]; [| discriminate Hrun].
    destruct (exporter_available (str p0)); [| discriminate Hrun].
    injection Hrun as <- <-.
    exists t. eexists. cbn [exported fs_files fs_dirs stdout with_dir].
    split; [reflexivity |]. split; [reflexivity |].
    rewrite app_assoc. reflexivity.
Qed.


End PipelineEnds.

Lemma convert_invalid_format_fails_late_witness :
  let w := RefLibs.world_with "in/a.ply" RefLibs.tetra_cloud in
  ("out" <> "" /\ ("out" ∈ fs_dirs w \/ fs_files w !! "out" = None)
   /\ ("" = "" \/ PyStr.contains PosixPath.sep "" = true))
  /\ exists w' cs,
       convert_to_watertight_mesh (L := RefLibs.libs) "in/a.ply" "out" 9 true "" w
       = (w', inl ValueError)
       /\ fs_files w' = fs_files w
       /\ "out" ∈ fs_dirs w'
       /\ calls w' = calls w ++ cs
       /\ In (call_create_from_point_cloud_poisson
                9 default_width default_scale default_linear_fit) cs
       /\ List.filter is_export_call cs = [].
Proof.
  intros w.
  assert (Hne : "out" <> "") by discriminate.
  assert (Hdir : "out" ∈ fs_dirs w \/ fs_files w !! "out" = None) by (right; reflexivity).
  assert (Hbad : "" = "" \/ PyStr.contains PosixPath.sep "" = true) by (left; reflexivity).
  exact (conj (conj Hne (conj Hdir Hbad))
           (convert_invalid_format_fails_late (L := RefLibs.libs)
              "in/a.ply" "out" 9 true "" w Hne Hdir Hbad)).
Defined.


Lemma convert_returned_path_holds_the_mesh_witness :
  let w := RefLibs.world_with "in/a.ply" (RefLibs.seven_corners 20000 1 1) in
  let r := convert_to_watertight_mesh (L := RefLibs.libs) "in/a.ply" "out" 9 true "obj" w in
  r = (fst r, inr "out/a_watertight.obj")
  /\ exists tri_mesh printed,
       fs_files (fst r) = <[ "out/a_watertight.obj" := MeshFile tri_mesh ]> (fs_files w)
       /\ fs_dirs (fst r) = {[ "out" ]} ∪ fs_dirs w
       /\ stdout (fst r) = printed ++ MsgSaved "out/a_watertight.obj" :: statistics tri_mesh.
Proof.
  intros w r.
  assert (Hsnd : snd r = inr "out/a_watertight.obj") by (vm_compute; reflexivity).
  assert (Hrun : r = (fst r, inr "out/a_watertight.obj")).
  { rewrite <- Hsnd. apply surjective_pairing. }
  exact (conj Hrun
           (convert_returned_path_holds_the_mesh (L := RefLibs.libs)
              "in/a.ply" "out" 9 true "obj" w (fst r) "out/a_watertight.obj" Hrun)).
Defined.

(** * The installation test *)

Module InstallationTestFacts.
Import InstallationTest.


Lemma out_bind_snd {A B : Type} (m : Out A) (k : A -> Out B) :
  snd (out_bind m k) = snd (k (snd m)).
Proof. unfold out_bind. destruct m as [l a]. cbn. now destruct (k a). Qed.

Lemma out_bind_pair {A B : Type} (m : Out A) (k : A -> Out B) :
  out_bind m k = (fst m ++ fst (k (snd m)), snd (k (snd m))).
Proof. unfold out_bind. destruct m as [l a]. cbn. now destruct (k a). Qed.

Lemma test_import_snd (env : Env) (module_name : string) (package_name : option string) :
  snd (test_import env module_name package_name) = importable env module_name.
Proof.
  unfold test_import, importable. now destruct (import_module env module_name).
Qed.

Lemma all_test_import_snd (env : Env) (modules : list (string * string)) :
  snd (all_test_import env modules)
  = forallb (fun m => importable env (fst m)) modules.
Proof.
  induction modules as [|[m n] rest IH]; [reflexivity |].
  cbn [all_test_import forallb fst]. rewrite out_bind_snd, test_import_snd.
  now destruct (importable env m).
Qed.

(** X13: [all] stops at the first module that cannot be imported: the
    modules after it are not imported and nothing is printed for them. *)
Theorem all_test_import_stops_at_first_failure
    (env : Env) (before after : list (string * string)) (module_name name : string) :
  forallb (fun m => importable env (fst m)) before = true ->
  importable env module_name = false ->
  all_test_import env (before ++ (module_name, name) :: after)
  = (import_lines env (before ++ [(module_name, name)]), false).
Proof.
  intros Hbefore Hfail.
  induction before as [|[m n] before IH].
  - cbn [app all_test_import]. rewrite out_bind_pair, test_import_snd, Hfail.
    unfold import_lines. cbn. now rewrite !app_nil_r.
  - cbn [forallb fst] in Hbefore. apply andb_prop in Hbefore as [Hm Hrest].
    change (((m, n) :: before) ++ (module_name, name) :: after)
      with ((m, n) :: (before ++ (module_name, name) :: after)).
    cbn [all_test_import]. rewrite out_bind_pair, test_import_snd, Hm, (IH Hrest).
    reflexivity.
Qed.

Lemma all_test_import_stops_at_first_failure_witness :
  forallb (fun m : string * string => importable no_numpy (fst m)) [] = true
  /\ importable no_numpy "numpy" = false
  /\ all_test_import no_numpy core_modules
     = ([NotInstalled "NumPy"; ErrorDetail "No module named 'numpy'"], false).
Proof.
  exact (conj eq_refl (conj eq_refl
           (all_test_import_stops_at_first_failure no_numpy []
              [("PIL", "Pillow"); ("torch", "PyTorch"); ("torchvision", "TorchVision")]
              "numpy" "NumPy" eq_refl eq_refl))).
Defined.

Lemma check_directories_loop_spec (env : Env) (dirs : list string) (all_exist : bool) :
  check_directories_loop env dirs all_exist
  = (map (directory_line env) dirs, all_exist && forallb (os_path_exists env) dirs).
Proof.
  revert all_exist. induction dirs as [|d dirs IH]; intros all_exist.
  - cbn. now rewrite andb_true_r.
  - cbn [check_directories_loop map forallb]. unfold directory_line at 1.
    destruct (os_path_exists env d); rewrite out_bind_pair, IH; cbn.
    + reflexivity.
    + now rewrite andb_false_r.
Qed.

(** X14: [check_directories] prints one line for each of the six
    directories, in order, also after a missing one, and returns whether
    all of them exist. *)
Theorem check_directories_checks_all (env : Env) :
  check_directories env
  = (map (directory_line env) required_directories,
     forallb (os_path_exists env) required_directories)
  /\ length (fst (check_directories env)) = 6%nat.
Proof.
  unfold check_directories. rewrite check_directories_loop_spec. split; reflexivity.
Qed.

Lemma check_sam_snd (env : Env) :
  snd (check_sam_3d_objects env) = importable env "sam_3d_objects.inference".
Proof.
  unfold check_sam_3d_objects, importable.
  now destruct (import_module env "sam_3d_objects.inference").
Qed.

Lemma check_cuda_snd (env : Env) : snd (check_cuda env) = cuda_available env.
Proof.
  unfold check_cuda, cuda_available, importable.
  destruct (import_module env "torch"); [| reflexivity].
  now destruct (torch_cuda env).
Qed.

Lemma check_directories_snd (env : Env) :
  snd (check_directories env) = forallb (os_path_exists env) required_directories.
Proof. unfold check_directories. now rewrite check_directories_loop_spec. Qed.

(** X15: the installation test returns 0 exactly when every package can
    be imported, CUDA is available and the six directories exist, and 1
    otherwise; on a machine without CUDA it returns 1 whatever else is
    installed. *)
Theorem main_exit_status (env : Env) :
  snd (main env) = (if all_ok env then 0 else 1)%Z
  /\ (cuda_available env = false -> snd (main env) = 1%Z).
Proof.
  assert (H : snd (main env) = (if all_ok env then 0 else 1)%Z).
  { unfold main. repeat (rewrite out_bind_snd; cbv beta).
    rewrite !all_test_import_snd, check_sam_snd, check_cuda_snd, check_directories_snd.
    unfold all_ok. cbn [forallb snd].
    destruct (forallb (fun m => importable env (fst m)) core_modules);
      destruct (forallb (fun m => importable env (fst m)) gui_modules);
      destruct (forallb (fun m => importable env (fst m)) mesh_modules);
      destruct (importable env "sam_3d_objects.inference");
      destruct (cuda_available env);
      destruct (forallb (os_path_exists env) required_directories);
      reflexivity. }
  split; [exact H |].
  intros Hcuda. rewrite H. unfold all_ok. rewrite Hcuda.
  now rewrite andb_false_r.
Qed.

Lemma main_exit_status_witness :
  cuda_available cpu_only = false /\ snd (main cpu_only) = 1%Z.
Proof.
  exact (conj eq_refl (proj2 (main_exit_status cpu_only) eq_refl)).
Defined.








End InstallationTestFacts.

(** * The GUI application *)

Section AppFacts.

Context {L : Libs} {A : AppLibs}.

Lemma click_all_snoc (self : App) (clicks : list (option Image * (Z * Z)))
    (click : option Image * (Z * Z)) :
  click_all self (clicks ++ [click])
  = fst (process_image_click (click_all self clicks) (fst click) (snd click)).
Proof. unfold click_all. now rewrite fold_left_app. Qed.

Lemma clicked_snoc (clicks : list (option Image * (Z * Z)))
    (click : option Image * (Z * Z)) :
  clicked (clicks ++ [click])
  = clicked clicks ++ match fst click with Some _ => [snd click] | None => [] end.
Proof. unfold clicked. rewrite flat_map_app. cbn. now rewrite app_nil_r. Qed.

Lemma click_all_points (self : App) (clicks : list (option Image * (Z * Z))) :
  selected_points (click_all self clicks) = selected_points self ++ clicked clicks.
Proof.
  induction clicks as [|click clicks IH] using rev_ind.
  - cbn. now rewrite app_nil_r.
  - rewrite click_all_snoc, clicked_snoc.
    destruct click as [[img|] [x y]]; cbn [fst snd process_image_click selected_points].
    + now rewrite IH, app_assoc.
    + now rewrite IH, app_nil_r.
Qed.

(** X9: the selected points are the coordinates of all clicks that came
    with an image, in order, whatever image each was made on; a click
    without an image changes nothing; and the next click draws a circle
    at every point selected so far on the image it is given. *)
Theorem clicks_accumulate_across_images
    (clicks : list (option Image * (Z * Z))) (img : Image) (x y : Z) :
  let app := click_all App_new clicks in
  let points := clicked clicks ++ [(x, y)] in
  selected_points app = clicked clicks
  /\ process_image_click app None (x, y) = (app, (None, "Please upload an image first"))
  /\ process_image_click app (Some img) (x, y)
     = (mkApp (Some img) points,
        (Some (Image_fromarray (draw_points points (np_array img))),
         click_status (length points) x y)).
Proof.
  intros app points.
  assert (Hpoints : selected_points app = clicked clicks)
    by (unfold app; now rewrite click_all_points).
  split; [exact Hpoints |]. split; [reflexivity |].
  unfold process_image_click. now rewrite Hpoints.
Qed.

(** X10: [clear_points] forgets the points and keeps the image: it
    returns the image as it was clicked, without circles, and
    [generate_3d] then refuses to run until a point is selected again,
    without touching the world or reporting progress. *)
Theorem clear_points_then_generate
    (self : App) (image : option Image) (ui : Ui) :
  let self' := fst (clear_points self) in
  clear_points self
  = (mkApp (current_image self) [], (current_image self, "Points cleared"))
  /\ exists status,
       generate_3d self' image ui = (ui, (None, None, status))
       /\ (status = "Please upload an image first"
           \/ status = "Please select at least one point on the image").
Proof.
  intros self'. split.
  - unfold clear_points. cbn [current_image]. now destruct (current_image self).
  - unfold self', clear_points. cbn [current_image].
    destruct (current_image self); cbn [fst]; destruct image; cbn; eauto.
Qed.

(** X11: [generate_3d] reports progress in the fixed order and stops
    reporting where it fails: "Complete!" is reported exactly when both
    paths are returned; otherwise no path is returned, and nothing is
    reported at all when the image or the points are missing. *)
Theorem generate_3d_progress_and_outcome
    (self : App) (image : option Image) (ui : Ui) :
  exists n : nat,
    ui_progress (fst (generate_3d self image ui))
    = ui_progress ui ++ firstn n progress_steps
    /\ match snd (generate_3d self image ui) with
       | (Some ply_path, Some mesh_path, status) =>
           n = 4%nat /\ status = success_status ply_path mesh_path
       | (None, None, status) =>
           (n < 4)%nat
           /\ (n = 0%nat <-> image = None \/ selected_points self = [])
           /\ (n <> 0%nat -> exists msg, status = error_status msg)
       | _ => False
       end.
Proof.
  unfold generate_3d.
  destruct image as [img|].
  2:{ exists 0%nat. cbn. rewrite app_nil_r. repeat split; auto; try lia. }
  destruct (selected_points self) as [|pt pts] eqn:Hpts.
  { exists 0%nat. cbn. rewrite app_nil_r. repeat split; auto; try lia. }
  cbv zeta.
  destruct (generate_mask _ _ _) as [w1 [msg | mask]].
  { exists 1%nat. cbn. split; [reflexivity |]. split; [lia |]. split.
    - split; [discriminate | intros [H | H]; discriminate H].
    - eauto. }
  destruct (generate_point_cloud _ _ _ _) as [w2 [msg | ply_path]].
  { exists 2%nat. cbn. rewrite <- app_assoc. split; [reflexivity |]. split; [lia |]. split.
    - split; [discriminate | intros [H | H]; discriminate H].
    - eauto. }
  destruct (convert_to_watertight_mesh _ _ _ _ _ _) as [w3 [e | mesh_path]].
  { exists 3%nat. cbn. rewrite <- !app_assoc. split; [reflexivity |]. split; [lia |]. split.
    - split; [discriminate | intros [H | H]; discriminate H].
    - eauto. }
  exists 4%nat. cbn. rewrite <- !app_assoc. repeat split.
Qed.

End AppFacts.

Section AppPaths.

Context {L : Libs} {A : AppLibs}.

Import PosixPath.

(** A path the pipeline returns for a plain format: where it is and what
    is there. *)
Lemma convert_inr_plain (ply_path output_dir : string) (depth : Z) (clean : bool)
    (output_format : string) (w w' : World) (p : string) :
  convert_to_watertight_mesh ply_path output_dir depth clean output_format w
  = (w', inr p) ->
  plain_format output_format = true ->
  p = normalize (os_path_join output_dir
                   (watertight_name (stem (parse ply_path)) output_format))
  /\ (exists tri_mesh, fs_files w' !! p = Some (MeshFile tri_mesh))
  /\ output_dir ∈ fs_dirs w'.
Proof.
  intros Hrun Hplain.
  destruct (os_makedirs_exist_ok output_dir w) as [w1 [e | []]] eqn:Hmk.
  - unfold convert_to_watertight_mesh in Hrun.
    rewrite (bind_inl _ _ _ _ _ Hmk) in Hrun. discriminate Hrun.
  - destruct (convert_trace ply_path output_dir depth clean output_format w _ Hmk)
      as (msgs & mask & repair & t & _ & H).
    cbv zeta in H. rewrite H in Hrun. clear H.
    destruct (os_makedirs_inr _ _ _ _ Hmk) as [-> _].
    change (String.append "." output_format) with (String dot output_format) in Hrun.
    rewrite (PosixPathFacts.with_suffix_join output_dir _ output_format
               (PosixPathFacts.stem_parse_no_sep ply_path) Hplain) in Hrun.
    destruct (exporter_available _); [| discriminate Hrun].
    injection Hrun as <- <-.
    split; [reflexivity |]. cbn [exported fs_files fs_dirs with_dir]. split.
    + eexists. apply lookup_insert_eq.
    + apply elem_of_union_l. now apply elem_of_singleton.
Qed.

Lemma default_output_join (n : string) :
  component n = true ->
  normalize (os_path_join "data/output" n) = String.append "data/output/" n.
Proof.
  intros Hn.
  rewrite PosixPathFacts.normalize_join; [| reflexivity | discriminate | exact Hn].
  unfold os_path_join.
  rewrite (PyStrFacts.startswith_contains sep n (PosixPathFacts.component_no_sep n Hn)).
  reflexivity.
Qed.

(** X12: when [generate_3d] returns a mesh path, it is
    ["data/output/<stem of the point cloud path>_watertight.obj"], a mesh
    file is there, and the status names both paths. *)
Theorem generate_3d_mesh_path
    (self : App) (image : option Image) (ui ui' : Ui)
    (ply_path mesh_path status : string) :
  generate_3d self image ui = (ui', (Some ply_path, Some mesh_path, status)) ->
  mesh_path
  = String.append "data/output/" (watertight_name (stem (parse ply_path)) "obj")
  /\ (exists tri_mesh, fs_files (ui_world ui') !! mesh_path = Some (MeshFile tri_mesh))
  /\ "data/output" ∈ fs_dirs (ui_world ui')
  /\ status = success_status ply_path mesh_path.
Proof.
  unfold generate_3d. intros H.
  destruct image as [img|]; [| discriminate H].
  destruct (selected_points self) as [|pt pts]; [discriminate H |].
  cbv zeta in H.
  destruct (generate_mask _ _ _) as [w1 [msg | mask]]; [discriminate H |].
  destruct (generate_point_cloud _ _ _ _) as [w2 [msg | ply]]; [discriminate H |].
  destruct (convert_to_watertight_mesh _ _ _ _ _ _) as [w3 [e | mesh]] eqn:Hrun;
    [discriminate H |].
  injection H as <- <- <- <-.
  destruct (convert_inr_plain _ _ _ _ _ _ _ _ Hrun eq_refl) as (Hp & Hfile & Hdir).
  rewrite default_output_join in Hp.
  - cbn [progress with_world ui_world]. auto.
  - apply PosixPathFacts.watertight_name_component; [| reflexivity].
    apply PosixPathFacts.stem_parse_no_sep.
Qed.

End AppPaths.

Lemma generate_3d_mesh_path_witness :
  let r := generate_3d RefApp.four_clicks (Some (RefApp.photo 2)) RefApp.new_ui in
  r = (fst r, (Some "data/output/object.ply", Some "data/output/object_watertight.obj",
               success_status "data/output/object.ply"
                 "data/output/object_watertight.obj"))
  /\ "data/output/object_watertight.obj"
     = String.append "data/output/"
         (watertight_name (PosixPath.stem (PosixPath.parse "data/output/object.ply")) "obj")
  /\ (exists tri_mesh,
         fs_files (ui_world (fst r)) !! "data/output/object_watertight.obj"
         = Some (MeshFile tri_mesh))
  /\ "data/output" ∈ fs_dirs (ui_world (fst r)).
Proof.
  intros r.
  assert (Hsnd : snd r
                 = (Some "data/output/object.ply",
                    Some "data/output/object_watertight.obj",
                    success_status "data/output/object.ply"
                      "data/output/object_watertight.obj"))
    by (vm_compute; reflexivity).
  assert (Hrun : r = (fst r, (Some "data/output/object.ply",
                              Some "data/output/object_watertight.obj",
                              success_status "data/output/object.ply"
                                "data/output/object_watertight.obj"))).
  { rewrite <- Hsnd. apply surjective_pairing. }
  destruct (generate_3d_mesh_path RefApp.four_clicks (Some (RefApp.photo 2)) RefApp.new_ui
              (fst r) _ _ _ Hrun) as (Hpath & Hfile & Hdir & _).
  exact (conj Hrun (conj Hpath (conj Hfile Hdir))).
Defined.

(** ** Saving to a path that has the extension already *)

Section SaveMeshKeeps.

Context {L : Libs}.

Import PosixPath.

Lemma length_drop (n : nat) (s : string) :
  String.length (PyStr.drop n s) = (String.length s - n)%nat.
Proof.
  revert n; induction s as [|a s IH]; intros [|n]; cbn; try reflexivity.
  apply IH.
Qed.

Lemma with_suffix_same (p : PurePath) (f : string) :
  normal p = true -> suffix p = String dot f -> with_suffix p (String dot f) = Some p.
Proof.
  intros Hp Hs. unfold suffix, name_suffix in Hs.
  destruct (suffix_index (name p)) as [i|] eqn:Ei; [| discriminate Hs].
  assert (Hname : name p <> "").
  { intros E. rewrite E in Ei. discriminate Ei. }
  assert (Hlen : (i + 1 < String.length (name p))%nat).
  { unfold suffix_index in Ei. destruct (PyStr.rfind dot (name p)) as [j|]; [| discriminate].
    destruct (0 <? j)%nat; [| discriminate]. cbn [andb] in Ei.
    destruct (j + 1 <? String.length (name p))%nat eqn:El; [| discriminate].
    injection Ei as <-. now apply Nat.ltb_lt. }
  assert (Hf : f <> "").
  { intros ->. pose proof (length_drop i (name p)) as Hd. rewrite Hs in Hd.
    cbn in Hd. lia. }
  assert (Hsep : PyStr.contains sep f = false).
  { pose proof (PosixPathFacts.component_no_sep _ (PosixPathFacts.name_component p Hp Hname))
      as Hc.
    rewrite <- (PyStrFacts.take_drop i (name p)), PyStrFacts.contains_append, Hs in Hc.
    apply orb_false_iff in Hc as [_ Hc]. cbn [PyStr.contains] in Hc.
    now apply orb_false_iff in Hc as [_ Hc]. }
  unfold with_suffix. rewrite valid_suffix_dot, Hsep.
  apply String.eqb_neq in Hf. rewrite Hf. cbn [negb andb].
  replace (String.eqb (name p) "") with false by (symmetry; now apply String.eqb_neq).
  assert (Hstem : String.append (stem p) (String dot f) = name p).
  { unfold stem, name_stem. rewrite Ei, <- Hs. apply PyStrFacts.take_drop. }
  rewrite Hstem, <- (PosixPathFacts.name_in_tail p Hname). now destruct p.
Qed.

(** X17: a path that already ends in the format's extension is saved
    under its own name: [save_mesh] returns the path in [pathlib]'s
    normal form and writes the mesh there. *)
Theorem save_mesh_keeps_matching_extension
    (mesh : Trimesh) (output_path file_format : string) (w : World) :
  suffix (parse output_path) = String.append "." file_format ->
  exporter_available (normalize output_path) = true ->
  save_mesh mesh output_path file_format w
  = (exported w [MsgSaved (normalize output_path)] [] (normalize output_path) mesh,
     inr (normalize output_path)).
Proof.
  intros Hs Hex.
  rewrite (save_mesh_some mesh output_path file_format (parse output_path) w).
  - fold (normalize output_path). now rewrite Hex.
  - apply (with_suffix_same (parse output_path) file_format);
      [apply PosixPathFacts.parse_normal | exact Hs].
Qed.

End SaveMeshKeeps.

Lemma save_mesh_keeps_matching_extension_witness :
  PosixPath.suffix (PosixPath.parse "./output//model.v2.stl") = String.append "." "stl"
  /\ @exporter_available RefLibs.libs "output/model.v2.stl" = true
  /\ save_mesh (L := RefLibs.libs) RefLibs.tetra "./output//model.v2.stl" "stl"
               RefLibs.empty_world
     = (exported RefLibs.empty_world [MsgSaved "output/model.v2.stl"] []
                 "output/model.v2.stl" RefLibs.tetra,
        inr "output/model.v2.stl").
Proof.
  exact (conj eq_refl (conj eq_refl
           (save_mesh_keeps_matching_extension (L := RefLibs.libs) RefLibs.tetra
              "./output//model.v2.stl" "stl" RefLibs.empty_world eq_refl eq_refl))).
Defined.
